(** * pypig: filename parsing, filtering, table rendering and commands

    A shallow embedding of [pypig/pypig.py] (the command line client of a
    private pypiserver) and the properties of its parts:

    - the filename parsers [WheelPackage] and [SourcePackage];
    - the listing reader and the filter chain of [get_filtered_packages];
    - the table printer [print_package_list];
    - the pip commands of [download];
    - the credentials and the index URL of [main].

    Python strings are sequences of code points; they are modelled as lists
    of [ascii] characters (code points below 256, which covers every literal
    of the program).  Exceptions are modelled by sum types, the standard
    output, the exit status of the process and the commands handed to the
    operating system by records. *)

From Stdlib Require Import Ascii String DecimalString.
From Stdlib Require Import List ZArith NArith Lia Bool Arith.
Import ListNotations.

(* ================================================================== *)
(** ** Strings *)

Definition str := list ascii.

(** A Python string literal. *)
Definition py (s : string) : str := list_ascii_of_string s.

(** The methods and operators of Python's [str] that the program uses. *)
Module PyStr.

(** [a == b] *)
Fixpoint eqb (a b : str) : bool :=
  match a, b with
  | [], [] => true
  | x :: a', y :: b' => Ascii.eqb x y && eqb a' b'
  | _, _ => false
  end.

(** Three-way comparison by code point, the order behind [<=] on [str]. *)
Fixpoint compare (a b : str) : comparison :=
  match a, b with
  | [], [] => Eq
  | [], _ :: _ => Lt
  | _ :: _, [] => Gt
  | x :: a', y :: b' =>
      match N.compare (N_of_ascii x) (N_of_ascii y) with
      | Eq => compare a' b'
      | c => c
      end
  end.

(** [a <= b] *)
Definition leb (a b : str) : bool :=
  match compare a b with
  | Gt => false
  | _ => true
  end.

(** [s.split(sep, maxsplit)] for a one-character separator, scanning from
    the left.  [maxsplit = None] is Python's default (no limit on the
    number of splits); the result always has at least one part. *)
Fixpoint split (sep : ascii) (maxsplit : option nat) (s : str) {struct s}
  : list str :=
  match s with
  | [] => [[]]
  | c :: s' =>
      let cut :=
        Ascii.eqb c sep &&
        match maxsplit with Some 0 => false | _ => true end in
      if cut then [] :: split sep (option_map Nat.pred maxsplit) s'
      else
        match split sep maxsplit s' with
        | part :: parts => (c :: part) :: parts
        | [] => [[c]]
        end
  end.

(** [s.startswith(prefix)] *)
Fixpoint startswith (s prefix : str) {struct prefix} : bool :=
  match prefix, s with
  | [], _ => true
  | p :: prefix', c :: s' => Ascii.eqb p c && startswith s' prefix'
  | _ :: _, [] => false
  end.

(** [s.endswith(suffix)] *)
Definition endswith (s suffix : str) : bool :=
  startswith (rev s) (rev suffix).

(** [sub in s] *)
Fixpoint contains (sub s : str) : bool :=
  startswith s sub ||
  match s with
  | [] => false
  | _ :: s' => contains sub s'
  end.

(** [s.find(sub)]: the lowest index where [sub] occurs, [-1] if none. *)
Fixpoint find (s sub : str) : Z :=
  if startswith s sub then 0%Z
  else
    match s with
    | [] => (-1)%Z
    | _ :: s' =>
        let i := find s' sub in
        if (i <? 0)%Z then (-1)%Z else (i + 1)%Z
    end.

(** A slice bound as Python normalises it: a negative index counts from
    the end, and the result is clipped to [0 .. len(s)]. *)
Definition bound (s : str) (i : Z) : nat :=
  let n := Z.of_nat (length s) in
  let j := if (i <? 0)%Z then (i + n)%Z else i in
  Z.to_nat (Z.min n (Z.max 0 j)).

(** [s[i:]] *)
Definition slice_from (s : str) (i : Z) : str := skipn (bound s i) s.

(** [s[:j]] *)
Definition slice_to (s : str) (j : Z) : str := firstn (bound s j) s.

(** [c.isspace()] for a code point below 256. *)
Definition isspace (c : ascii) : bool :=
  let n := N_of_ascii c in
  ((9 <=? n) && (n <=? 13) || (28 <=? n) && (n <=? 32)
   || (n =? 133) || (n =? 160))%N.

Fixpoint lstrip (s : str) : str :=
  match s with
  | c :: s' => if isspace c then lstrip s' else s
  | [] => []
  end.

(** [s.strip()] *)
Definition strip (s : str) : str := rev (lstrip (rev (lstrip s))).

(** [sep.join(parts)] *)
Fixpoint join (sep : str) (parts : list str) : str :=
  match parts with
  | [] => []
  | [p] => p
  | p :: rest => p ++ sep ++ join sep rest
  end.

(** ["{:>{width}}".format(s, width=width)]: right-aligned in [width]
    columns, padded on the left with spaces, never truncated. *)
Definition rjust (width : nat) (s : str) : str :=
  repeat " "%char (width - length s) ++ s.

End PyStr.

(* ================================================================== *)
(** ** Exceptions *)

Inductive exn : Type :=
| TypeError   (* a call with too few positional arguments *)
| IndexError. (* a list or a format argument index out of range *)

Definition result (A : Type) : Type := (exn + A)%type.

Definition ret {A : Type} (a : A) : result A := inr a.
Definition raise {A : Type} (e : exn) : result A := inl e.

Definition bind {A B : Type} (m : result A) (k : A -> result B) : result B :=
  match m with
  | inl e => inl e
  | inr a => k a
  end.

Notation "x <- m ;; k" := (bind m (fun x => k))
  (at level 61, m at next level, right associativity).

(** A comprehension whose element expression may raise: the first element
    that raises ends the iteration. *)
Fixpoint mapM {A B : Type} (f : A -> result B) (l : list A) : result (list B) :=
  match l with
  | [] => ret []
  | a :: l' => b <- f a ;; bs <- mapM f l' ;; ret (b :: bs)
  end.

(* ================================================================== *)
(** ** Package records and the filename parsers *)

(** [class Package]: the attributes in the order [__init__] assigns them. *)
Record Package : Type := mkPackage {
  name : str;
  version : str;
  platform : str;
  python : str;
  abi : str;
  type : str
}.

(** [Package.__init__], called with an unpacked sequence of arguments: the
    constructor takes exactly six positional arguments
    [name, version, python_tag, abi_tag, platform, filetype]. *)
Definition Package_init (args : list str) : result Package :=
  match args with
  | [name_; version_; python_tag; abi_tag; platform_; filetype] =>
      ret (mkPackage name_ version_ platform_ python_tag abi_tag filetype)
  | _ => raise TypeError
  end.

(** The local [tags] of both parsers: reverse the filename, split it from
    the left at most [maxsplit] times, reverse each part, reverse the list. *)
Definition rtags (maxsplit : nat) (filename : str) : list str :=
  rev (map (@rev ascii) (PyStr.split "-"%char (Some maxsplit) (rev filename))).

(** [WheelPackage(filename)] *)
Definition WheelPackage (filename : str) : result Package :=
  let tags := rtags 4 filename in
  Package_init (tags ++ [py "wheel"]).

(** [tags[i]] *)
Definition getitem (tags : list str) (i : nat) : result str :=
  match nth_error tags i with
  | Some t => ret t
  | None => raise IndexError
  end.

(** [SourcePackage(filename)] *)
Definition SourcePackage (filename : str) : result Package :=
  let tags := rtags 1 filename in
  t0 <- getitem tags 0 ;;
  t1 <- getitem tags 1 ;;
  Package_init [t0; t1; py "py3"; py "none"; py "any"; py "sdist"].

(* ================================================================== *)
(** ** The listing and the filter chain *)

(** The command line options the filters read; [None] is Python's [None]
    (the option was not given). *)
Record Args : Type := mkArgs {
  arg_name : option str;
  arg_version : option (list str);
  arg_pyver : option str;
  arg_platform : option str
}.

(** The file names of the listing: the stripped lines that start with
    [<a href], cut after the first [>] and before the next [<]. *)
Definition listing_names (readlines : list str) : list str :=
  let lines := map PyStr.strip readlines in
  let lines :=
    map (fun l => PyStr.slice_from l (PyStr.find l (py ">") + 1))
        (filter (fun l => PyStr.startswith l (py "<a href")) lines) in
  map (fun l => PyStr.slice_to l (PyStr.find l (py "<"))) lines.

(** The dictionary [extensions], in insertion order. *)
Definition extensions : list (str * (str -> result Package)) :=
  [(py ".whl", WheelPackage); (py ".tar.gz", SourcePackage)].

(** The generator [packages]: for every line and every extension the line
    ends with, the parser of that extension applied to the line without the
    extension.  The generator is lazy: a parser's exception surfaces when
    the generator is consumed. *)
Definition line_packages (l : str) : result (list Package) :=
  mapM (fun ex : str * (str -> result Package) =>
          snd ex (PyStr.slice_to l (- Z.of_nat (length (fst ex)))))
       (filter (fun ex : str * (str -> result Package) =>
                  PyStr.endswith l (fst ex)) extensions).

Definition listing_packages (readlines : list str) : result (list Package) :=
  pss <- mapM line_packages (listing_names readlines) ;;
  ret (concat pss).

(** The lambda [pyver_convert]: the parts of [x.split(".")] are the
    positional arguments of the format string ["cp{}{}"], which needs two
    of them and ignores further ones. *)
Definition pyver_convert (x : str) : result str :=
  match PyStr.split "."%char None x with
  | major :: minor :: _ => ret (py "cp" ++ major ++ minor)
  | _ => raise IndexError
  end.

(** The lambda [version_filter]. *)
Definition version_filter (vs : list str) (x : Package) : bool :=
  match vs with
  | [v] => PyStr.eqb (version x) v
  | low :: high :: _ =>
      PyStr.leb low (version x) && PyStr.leb (version x) high
  | [] => true (* not reached: the filter is installed for a non-empty list *)
  end.

(** The lambda of the platform filter. *)
Definition platform_filter (p : str) (x : Package) : bool :=
  PyStr.contains p (platform x) || PyStr.eqb (platform x) (py "any").

(** Lines 149-170 of [get_filtered_packages], on the generator [packages].
    A filter is installed when its option is truthy: not [None] and not
    empty ([Some (c :: _)]).  [pyver_convert] runs while the chain is built;
    the generator is consumed by the final [list(packages)]. *)
Definition filter_packages (args : Args) (packages : result (list Package))
  : result (list Package) :=
  let f_name (ps : list Package) :=
    match arg_name args with
    | Some (c :: n) => filter (fun x => PyStr.eqb (name x) (c :: n)) ps
    | _ => ps
    end in
  let f_version (ps : list Package) :=
    match arg_version args with
    | Some (v :: vs) => filter (version_filter (v :: vs)) ps
    | _ => ps
    end in
  cpver <- match arg_pyver args with
           | Some (c :: v) => t <- pyver_convert (c :: v) ;; ret (Some t)
           | _ => ret None
           end ;;
  let f_pyver (ps : list Package) :=
    match cpver with
    | Some t => filter (fun x => PyStr.eqb (python x) t) ps
    | None => ps
    end in
  let f_platform (ps : list Package) :=
    match arg_platform args with
    | Some (c :: p) => filter (platform_filter (c :: p)) ps
    | _ => ps
    end in
  ps <- packages ;;
  ret (f_platform (f_pyver (f_version (f_name ps)))).

(** [get_filtered_packages(args)], given the lines of the listing. *)
Definition get_filtered_packages (args : Args) (readlines : list str)
  : result (list Package) :=
  filter_packages args (listing_packages readlines).

(* ================================================================== *)
(** ** The table printer *)

(** What a command leaves behind: the text written to the standard output
    and, when [sys.exit] was called, the exit status. *)
Record Outcome : Type := mkOutcome {
  stdout : str;
  exit_status : option Z
}.

(** The line feed character. *)
Definition newline : ascii := "010"%char.

(** [print(s)] *)
Definition print (s : str) : str := s ++ [newline].

(** The names in the tuple [attrs]. *)
Inductive Attr : Type := a_name | a_version | a_python | a_platform | a_type.

Definition attrs : list Attr := [a_name; a_version; a_python; a_platform; a_type].

Definition attr_str (a : Attr) : str :=
  match a with
  | a_name => py "name"
  | a_version => py "version"
  | a_python => py "python"
  | a_platform => py "platform"
  | a_type => py "type"
  end.

(** [getattr(pack, attr)] *)
Definition getattr (pack : Package) (a : Attr) : str :=
  match a with
  | a_name => name pack
  | a_version => version pack
  | a_python => python pack
  | a_platform => platform pack
  | a_type => type pack
  end.

Definition titlepackage : Package :=
  mkPackage (py "name") (py "version") (py "platform") (py "python")
            (py "abi") (py "type").

(** ["=" * max(len(x) for x in attrs)], six times.  ([max] is only applied
    to non-empty sequences in this program.) *)
Definition sepcell : str :=
  repeat "="%char (list_max (map (fun x => length (attr_str x)) attrs)).

Definition sepackage : Package :=
  mkPackage sepcell sepcell sepcell sepcell sepcell sepcell.

(** The rows of the table: header, separator, then one row per package. *)
Definition table_packages (packages : list Package) : list Package :=
  [titlepackage; sepackage] ++ packages.

Definition widths (packages : list Package) : list nat :=
  map (fun attr =>
         list_max (map (fun pack => length (getattr pack attr))
                       (table_packages packages)))
      attrs.

Definition row (ws : list nat) (pack : Package) : str :=
  PyStr.join (py " ")
    (map (fun aw : Attr * nat => PyStr.rjust (snd aw) (getattr pack (fst aw)))
         (combine attrs ws)).

Definition rows (packages : list Package) : list str :=
  map (row (widths packages)) (table_packages packages).

(** [print_package_list(packages)] *)
Definition print_package_list (packages : list Package) : Outcome :=
  match packages with
  | [] => mkOutcome (print (py "No packages found matching filters")) (Some 1%Z)
  | _ :: _ =>
      mkOutcome (print (PyStr.join [newline] (rows packages)))
                None
  end.

(** [package_list(args)], given the lines of the listing. *)
Definition package_list (args : Args) (readlines : list str) : result Outcome :=
  packages <- get_filtered_packages args readlines ;;
  ret (print_package_list packages).

(* ================================================================== *)
(** ** Display strings and the download command *)

(** [Package.__str__], which [__repr__] and the f-strings use: the six
    attributes joined by spaces, and a line feed. *)
Definition Package_str (p : Package) : str :=
  PyStr.join (py " ")
    [name p; version p; python p; abi p; platform p; type p] ++ [newline].

(** [str(n)] for an [int]. *)
Definition str_of_int (n : Z) : str := py (NilZero.string_of_int (Z.to_int n)).

(** What [download] reads besides the filters: [sys.executable] and the
    attributes [url], [timeout] and [dest] of [args]. *)
Record Env : Type := mkEnv {
  executable : str;
  url : str;
  timeout : Z;
  dest : str
}.

(** The list [base_sys_call]. *)
Definition base_sys_call (env : Env) : list str :=
  [executable env; py "-m"; py "pip"; py "--default-timeout";
   str_of_int (timeout env); py "download"; py "--no-deps"; py "--pre";
   py "-i"; url env].

(** The list [sys_call] built for one package. *)
Definition sys_call (env : Env) (package : Package) : list str :=
  let call :=
    base_sys_call env
    ++ [name package ++ py "==" ++ version package; py "-d"; dest env] in
  let call :=
    if PyStr.startswith (python package) (py "cp")
    then call ++ [py "--python";
                  PyStr.slice_from (python package) (Z.of_nat (length (py "cp")))]
    else call in
  if negb (PyStr.eqb (platform package) (py "any"))
  then call ++ [py "--platform"; platform package]
  else call.

(** The exceptions of the commands. *)
Inductive failure : Type :=
| Raised (e : exn)                    (* raised while the listing is read *)
| CalledProcessError (returncode : Z) (* [subprocess.check_call] *)
| RuntimeError (message : str)
| KeyError (key : str)
| AttributeError.

(** What a run of [download] leaves behind: the text written to the
    standard output, the commands handed to [subprocess.check_call] in the
    order of the calls, and the exception that ended the run, if any. *)
Record Run : Type := mkRun {
  run_stdout : str;
  run_calls : list (list str);
  run_error : option failure
}.

(** The loop of [download].  The outside world is the exit status of each
    pip process: [statuses k] is the status of the call number [k];
    [check_call] raises [CalledProcessError] on a status other than zero. *)
Fixpoint download_loop (env : Env) (statuses : nat -> Z) (k : nat)
                       (packages : list Package) : Run :=
  match packages with
  | [] => mkRun [] [] None
  | package :: rest =>
      let call := sys_call env package in
      let text :=
        print (py "Downloading package " ++ Package_str package)
        ++ print (PyStr.join (py " ") call) in
      if (statuses k =? 0)%Z then
        let r := download_loop env statuses (S k) rest in
        mkRun (text ++ run_stdout r) (call :: run_calls r) (run_error r)
      else mkRun text [call] (Some (CalledProcessError (statuses k)))
  end.

(** [download(args)], given the lines of the listing. *)
Definition download (env : Env) (statuses : nat -> Z) (args : Args)
                    (readlines : list str) : Run :=
  match get_filtered_packages args readlines with
  | inl e => mkRun [] [] (Some (Raised e))
  | inr packages => download_loop env statuses 0 packages
  end.

(* ================================================================== *)
(** ** Credentials and the index URL *)

(** The dictionary [vars(args)]: the attributes of the parsed arguments, in
    order, [None] for an option that was not given.  The values this part of
    [main] reads are the credentials, which are strings; of the other
    attributes it only tests whether they are [None]. *)
Definition Namespace := list (str * option str).

(** [d.get(key)]-like lookup: [None] when the key is absent. *)
Fixpoint lookup {A : Type} (key : str) (d : list (str * A)) : option A :=
  match d with
  | [] => None
  | (k, v) :: d' => if PyStr.eqb k key then Some v else lookup key d'
  end.

(** [d[key] = val] *)
Fixpoint setitem {A : Type} (key : str) (val : A) (d : list (str * A))
  : list (str * A) :=
  match d with
  | [] => [(key, val)]
  | (k, v) :: d' =>
      if PyStr.eqb k key then (k, val) :: d' else (k, v) :: setitem key val d'
  end.

Definition bindF {A B : Type} (m : failure + A) (k : A -> failure + B)
  : failure + B :=
  match m with
  | inl e => inl e
  | inr a => k a
  end.

Notation "x <~ m ;; k" := (bindF m (fun x => k))
  (at level 61, m at next level, right associativity).

(** [varargs[key]] *)
Definition varargs_get (ns : Namespace) (key : str) : failure + option str :=
  match lookup key ns with
  | Some v => inr v
  | None => inl (KeyError key)
  end.

(** [args.key] *)
Definition attribute (ns : Namespace) (key : str) : failure + option str :=
  match lookup key ns with
  | Some v => inr v
  | None => inl AttributeError
  end.

(** The loop over the items of the configuration file: a value of the file
    is assigned to an attribute that is [None], an attribute that is set
    keeps its value, and a key that is no attribute raises. *)
Fixpoint merge_items (ns : Namespace) (items : list (str * option str))
  : failure + Namespace :=
  match items with
  | [] => inr ns
  | (key, val) :: items' =>
      v <~ varargs_get ns key ;;
      match v with
      | None => merge_items (setitem key val ns) items'
      | Some _ => merge_items ns items'
      end
  end.

Definition is_None (v : option str) : bool :=
  match v with
  | None => true
  | Some _ => false
  end.

(** Lines 271-281 of [main].  [config_file] is the content of
    [~/.config/pypig/auth.json] as [json.load] returns it, a dictionary of
    strings and nulls, or [None] when the file does not exist. *)
Definition load_config (ns : Namespace)
                       (config_file : option (list (str * option str)))
  : failure + Namespace :=
  password <~ attribute ns (py "password") ;;
  username <~ attribute ns (py "username") ;;
  index <~ attribute ns (py "index") ;;
  if is_None password || is_None username || is_None index then
    match config_file with
    | None =>
        inl (RuntimeError (py "Username and password must be set by optional arguments or in $HOME/.config/pypig/auth.json"))
    | Some items => merge_items ns items
    end
  else inr ns.

Definition URL_PREFIX : str := py "https://".

(** A replacement field of an f-string: a string as it is, [None] as the
    text None. *)
Definition format_field (v : option str) : str :=
  match v with
  | Some s => s
  | None => py "None"
  end.

(** Lines 283-288 of [main]: the value of [args.url]. *)
Definition index_url (ns : Namespace) : failure + str :=
  index <~ attribute ns (py "index") ;;
  match index with
  | None => inl AttributeError
  | Some index =>
      if PyStr.startswith index URL_PREFIX then
        username <~ attribute ns (py "username") ;;
        password <~ attribute ns (py "password") ;;
        inr (URL_PREFIX ++ format_field username ++ py ":"
             ++ format_field password ++ py "@"
             ++ PyStr.slice_from index (Z.of_nat (length URL_PREFIX)))
      else inl (RuntimeError (py "Index url must begin with " ++ URL_PREFIX))
  end.

(** [main] up to the dispatch of the command: the URL the command gets. *)
Definition main_url (ns : Namespace)
                    (config_file : option (list (str * option str)))
  : failure + str :=
  ns' <~ load_config ns config_file ;;
  index_url ns'.

(* ================================================================== *)
(** ** Vocabulary of the specification *)

(** The separator of the filename grammar. *)
Definition dash : ascii := "-"%char.

(** [out] keeps exactly the records of [l] that satisfy [P], in order. *)
Inductive keeps (P : Package -> Prop) : list Package -> list Package -> Prop :=
| keeps_nil : keeps P [] []
| keeps_take x l out : P x -> keeps P l out -> keeps P (x :: l) (x :: out)
| keeps_drop x l out : ~ P x -> keeps P l out -> keeps P (x :: l) out.

(** Lexicographic order on strings, by code point. *)
Inductive lex_le : str -> str -> Prop :=
| lex_le_nil b : lex_le [] b
| lex_le_lt x y a b : (N_of_ascii x < N_of_ascii y)%N -> lex_le (x :: a) (y :: b)
| lex_le_eq x a b : lex_le a b -> lex_le (x :: a) (x :: b).

(** [sub] occurs in [s]. *)
Definition substring (sub s : str) : Prop :=
  exists pre post, s = pre ++ sub ++ post.

(** All six fields of a record are non-empty strings. *)
Definition all_fields_nonempty (r : Package) : Prop :=
  name r <> [] /\ version r <> [] /\ python r <> [] /\ abi r <> [] /\
  platform r <> [] /\ type r <> [].

(** The width of a column of the table: the longest value of the records in
    that column, and eight (the length of the separator cell) at least. *)
Definition table_width (packages : list Package) (a : Attr) : nat :=
  Nat.max 8 (list_max (map (fun p => length (getattr p a)) packages)).

(** [cell] shows [value] right-aligned in [w] columns. *)
Definition right_aligned (w : nat) (value cell : str) : Prop :=
  length cell = w /\ exists k, cell = repeat " "%char k ++ value.

(** The column width in the words of the specification: the longest of the
    header text and the values of the records in that column. *)
Definition spec_width (packages : list Package) (a : Attr) : nat :=
  Nat.max (length (attr_str a))
          (list_max (map (fun p => length (getattr p a)) packages)).

(** The table in the words of the specification: a header row, a row of [=]
    characters (between the spaces that separate the columns), then one row
    per record, every cell right-aligned to [spec_width]. *)
Definition table_as_specified (packages : list Package) (lines : list str)
  : Prop :=
  exists header sep body,
    lines = header :: sep :: body /\
    header = PyStr.join (py " ")
               (map (fun a => PyStr.rjust (spec_width packages a) (attr_str a))
                    attrs) /\
    (forall c, In c sep -> c = "="%char \/ c = " "%char) /\
    body = map (fun p =>
                  PyStr.join (py " ")
                    (map (fun a => PyStr.rjust (spec_width packages a)
                                               (getattr p a)) attrs))
               packages.

(** The tag the python filter compares with, as [filter_packages] computes
    it: none when the filter is not installed. *)
Definition filter_tag (args : Args) : result (option str) :=
  match arg_pyver args with
  | Some (c :: v) => t <- pyver_convert (c :: v) ;; ret (Some t)
  | _ => ret None
  end.

(** A record passes every filter that [args] installs, the python filter
    comparing with [cpver]. *)
Definition passes (args : Args) (cpver : option str) (x : Package) : Prop :=
  match arg_name args with
  | Some (c :: n) => name x = c :: n
  | _ => True
  end /\
  match arg_version args with
  | Some [v] => version x = v
  | Some (low :: high :: _) =>
      lex_le low (version x) /\ lex_le (version x) high
  | _ => True
  end /\
  match cpver with
  | Some t => python x = t
  | None => True
  end /\
  match arg_platform args with
  | Some (c :: p) => substring (c :: p) (platform x) \/ platform x = py "any"
  | _ => True
  end.

(** The six fields of a record, in the order of the display string. *)
Definition fields (p : Package) : list str :=
  [name p; version p; python p; abi p; platform p; type p].

(** What [download] prints for one package: the line that announces it,
    which ends with the line feed of the display string and that of
    [print], and the command. *)
Definition download_text (env : Env) (package : Package) : str :=
  print (py "Downloading package " ++ Package_str package)
  ++ print (PyStr.join (py " ") (sys_call env package)).

(** The arguments of a command that select the platform. *)
Definition platform_args (package : Package) : list str :=
  if PyStr.eqb (platform package) (py "any") then []
  else [py "--platform"; platform package].

(** The same as one test, the conjunction of the installed filters. *)
Definition passb (args : Args) (cpver : option str) (x : Package) : bool :=
  match arg_name args with
  | Some (c :: n) => PyStr.eqb (name x) (c :: n)
  | _ => true
  end &&
  match arg_version args with
  | Some (v :: vs) => version_filter (v :: vs) x
  | _ => true
  end &&
  match cpver with
  | Some t => PyStr.eqb (python x) t
  | None => true
  end &&
  match arg_platform args with
  | Some (c :: p) => platform_filter (c :: p) x
  | _ => true
  end.

(* ================================================================== *)
(** ** Example data *)

(** A line of the listing page for the file [fname]. *)
Definition anchor (fname : str) : str :=
  py "<a href=" ++ ["034"%char] ++ py "/packages/" ++ fname ++ ["034"%char]
  ++ py ">" ++ fname ++ py "</a><br>".

Definition pytket_listing : list str :=
  [anchor (py "pytket-0.5.3-cp38-none-linux_x86_64.whl");
   anchor (py "pytket-0.5.3.tar.gz")].

Definition pytket_wheel : Package :=
  {| name := py "pytket"; version := py "0.5.3"; python := py "cp38";
     abi := py "none"; platform := py "linux_x86_64"; type := py "wheel" |}.

Definition pytket_sdist : Package :=
  {| name := py "pytket"; version := py "0.5.3"; python := py "py3";
     abi := py "none"; platform := py "any"; type := py "sdist" |}.

Definition short_package : Package :=
  {| name := py "a"; version := py "1"; python := py "py3";
     abi := py "none"; platform := py "any"; type := py "sdist" |}.

Definition wide_package : Package :=
  {| name := py "pytket-qiskit"; version := py "0.5.3.dev1";
     python := py "cp38.cp39"; abi := py "none";
     platform := py "linux_x86_64"; type := py "bdist_wheel" |}.

(** Side conditions on concrete strings: a character does not occur. *)
Ltac absent := simpl; unfold dash; intuition discriminate.

(* ================================================================== *)
(** ** Splitting *)

Section Split.

Variable sep : ascii.

Lemma split_not_nil m s : PyStr.split sep m s <> [].
Proof.
  revert m; induction s as [|c s IH]; intros m; simpl; [discriminate|].
  destruct (_ && _); [discriminate|].
  specialize (IH m). destruct (PyStr.split sep m s); [contradiction|discriminate].
Qed.

(** With no split left the rest of the string is one part. *)
Lemma split_zero s : PyStr.split sep (Some 0) s = [s].
Proof.
  induction s as [|c s IH]; simpl; [reflexivity|].
  rewrite andb_false_r, IH. reflexivity.
Qed.

(** A string without separator is one part. *)
Lemma split_nosep m s : ~ In sep s -> PyStr.split sep m s = [s].
Proof.
  induction s as [|c s IH]; simpl; intros H; [reflexivity|].
  destruct (Ascii.eqb_spec c sep) as [->|_]; [tauto|].
  simpl. rewrite IH by tauto. reflexivity.
Qed.

(** The first part ends at the first separator. *)
Lemma split_first n v rest :
  ~ In sep v ->
  PyStr.split sep (Some (S n)) (v ++ sep :: rest)
  = v :: PyStr.split sep (Some n) rest.
Proof.
  induction v as [|c v IH]; simpl; intros H.
  - rewrite Ascii.eqb_refl. reflexivity.
  - destruct (Ascii.eqb_spec c sep) as [->|_]; [tauto|].
    simpl. rewrite IH by tauto. reflexivity.
Qed.

Lemma split_first_nolimit v rest :
  ~ In sep v ->
  PyStr.split sep None (v ++ sep :: rest) = v :: PyStr.split sep None rest.
Proof.
  induction v as [|c v IH]; simpl; intros H.
  - rewrite Ascii.eqb_refl. reflexivity.
  - destruct (Ascii.eqb_spec c sep) as [->|_]; [tauto|].
    simpl. rewrite IH by tauto. reflexivity.
Qed.

(** The number of parts: one more than the separators, up to the limit. *)
Lemma length_split n s :
  length (PyStr.split sep (Some n) s)
  = S (Nat.min n (count_occ ascii_dec s sep)).
Proof.
  revert n; induction s as [|c s IH]; intros n; simpl.
  - rewrite Nat.min_0_r. reflexivity.
  - destruct (Ascii.eqb_spec c sep) as [->|Hne].
    + destruct (ascii_dec sep sep) as [_|]; [|contradiction].
      destruct n as [|n]; simpl.
      * generalize (IH 0) (split_not_nil (Some 0) s).
        destruct (PyStr.split sep (Some 0) s); simpl; [contradiction|intros -> _; reflexivity].
      * rewrite IH. reflexivity.
    + destruct (ascii_dec c sep) as [|_]; [contradiction|].
      simpl. generalize (IH n) (split_not_nil (Some n) s).
      destruct (PyStr.split sep (Some n) s); simpl; [contradiction|intros -> _; reflexivity].
Qed.

Lemma count_occ_rev (s : str) :
  count_occ ascii_dec (rev s) sep = count_occ ascii_dec s sep.
Proof.
  induction s as [|c s IH]; simpl; [reflexivity|].
  rewrite count_occ_app, IH. simpl.
  destruct (ascii_dec c sep); lia.
Qed.

(** A string with a separator splits at its last one. *)
Lemma last_sep s :
  1 <= count_occ ascii_dec s sep ->
  exists a b, s = a ++ sep :: b /\ ~ In sep b /\
              count_occ ascii_dec a sep = count_occ ascii_dec s sep - 1.
Proof.
  induction s as [|c s IH]; simpl; [lia|].
  intros H.
  destruct (Nat.eq_dec (count_occ ascii_dec s sep) 0) as [Hz|Hnz].
  - destruct (ascii_dec c sep) as [->|]; [|lia].
    exists [], s. simpl. repeat split; [|lia].
    apply (count_occ_not_In ascii_dec). exact Hz.
  - destruct IH as (a & b & -> & Hb & Ha); [lia|].
    exists (c :: a), b. simpl. repeat split; [exact Hb|].
    rewrite count_occ_app in *. simpl in *.
    destruct (ascii_dec sep sep); [|contradiction].
    destruct (ascii_dec c sep); lia.
Qed.

End Split.

(* ================================================================== *)
(** ** The filename parsers *)

Lemma join_snoc sep l x :
  l <> [] -> PyStr.join sep (l ++ [x]) = PyStr.join sep l ++ sep ++ x.
Proof.
  induction l as [|p l IH]; intros H; [contradiction|].
  destruct l as [|q l]; [reflexivity|].
  change (PyStr.join sep ((p :: q :: l) ++ [x]))
    with (p ++ sep ++ PyStr.join sep ((q :: l) ++ [x])).
  rewrite IH by discriminate.
  change (PyStr.join sep (p :: q :: l)) with (p ++ sep ++ PyStr.join sep (q :: l)).
  rewrite <- !app_assoc. reflexivity.
Qed.

Lemma rtags_zero f : rtags 0 f = [f].
Proof.
  unfold rtags. rewrite split_zero. simpl. rewrite rev_involutive. reflexivity.
Qed.

(** Splitting from the right: the last part starts after the last dash. *)
Lemma rtags_last n f v :
  ~ In dash v -> rtags (S n) (f ++ dash :: v) = rtags n f ++ [v].
Proof.
  intros H. unfold rtags.
  rewrite rev_app_distr. simpl rev. rewrite <- app_assoc. simpl app.
  rewrite split_first by (rewrite <- in_rev; exact H).
  simpl. rewrite rev_involutive. reflexivity.
Qed.

(** The parts of a joined filename whose trailing fields have no dash. *)
Lemma rtags_join n ts :
  Forall (fun t => ~ In dash t) ts ->
  rtags (length ts) (PyStr.join [dash] (n :: ts)) = n :: ts.
Proof.
  induction ts as [|t ts IH] using rev_ind; intros H.
  - apply rtags_zero.
  - apply Forall_app in H. destruct H as [Hts Ht].
    inversion Ht as [|? ? Hd _]; subst.
    rewrite length_app. simpl length. rewrite Nat.add_1_r.
    change (n :: ts ++ [t]) with ((n :: ts) ++ [t]).
    rewrite join_snoc by discriminate. change ([dash] ++ t) with (dash :: t).
    rewrite rtags_last by exact Hd.
    rewrite IH by exact Hts. reflexivity.
Qed.

Lemma length_rtags k f :
  length (rtags k f) = S (Nat.min k (count_occ ascii_dec f dash)).
Proof.
  unfold rtags. rewrite length_rev, length_map, length_split, count_occ_rev.
  reflexivity.
Qed.

(** Every filename with [k] dashes or more is a name followed by [k]
    dash-free fields. *)
Lemma rsplit_exists k f :
  k <= count_occ ascii_dec f dash ->
  exists n ts, length ts = k /\ Forall (fun t => ~ In dash t) ts /\
               f = PyStr.join [dash] (n :: ts).
Proof.
  revert f; induction k as [|k IH]; intros f H.
  - exists f, []. repeat split. constructor.
  - destruct (last_sep dash f) as (a & b & -> & Hb & Ha); [lia|].
    destruct (IH a) as (n & ts & Hlen & Hts & ->); [lia|].
    exists n, (ts ++ [b]). repeat split.
    + rewrite length_app. simpl. lia.
    + apply Forall_app. split; [exact Hts|]. constructor; [exact Hb|constructor].
    + change (n :: ts ++ [b]) with ((n :: ts) ++ [b]).
      rewrite join_snoc by discriminate. reflexivity.
Qed.

Lemma WheelPackage_tags f n v p a pl :
  rtags 4 f = [n; v; p; a; pl] ->
  WheelPackage f = inr (mkPackage n v pl p a (py "wheel")).
Proof. unfold WheelPackage. intros ->. reflexivity. Qed.

Lemma SourcePackage_tags f n v :
  rtags 1 f = [n; v] ->
  SourcePackage f
  = inr (mkPackage n v (py "any") (py "py3") (py "none") (py "sdist")).
Proof. unfold SourcePackage. intros ->. reflexivity. Qed.

Lemma wheel_tags_join n v p a pl :
  ~ In dash v -> ~ In dash p -> ~ In dash a -> ~ In dash pl ->
  rtags 4 (PyStr.join (py "-") [n; v; p; a; pl]) = [n; v; p; a; pl].
Proof.
  intros Hv Hp Ha Hpl.
  apply (rtags_join n [v; p; a; pl]). repeat constructor; assumption.
Qed.

Lemma sdist_tags_join n v :
  ~ In dash v -> rtags 1 (PyStr.join (py "-") [n; v]) = [n; v].
Proof.
  intros Hv. apply (rtags_join n [v]). repeat constructor; assumption.
Qed.

(** Every filename with four dashes or more is read as a wheel, its name
    being what precedes the fourth dash from the end. *)
Lemma WheelPackage_of_dashes f :
  4 <= count_occ ascii_dec f dash ->
  exists n v p a pl,
    f = PyStr.join (py "-") [n; v; p; a; pl] /\
    ~ In dash v /\ ~ In dash p /\ ~ In dash a /\ ~ In dash pl /\
    WheelPackage f = inr (mkPackage n v pl p a (py "wheel")).
Proof.
  intros H. destruct (rsplit_exists 4 f H) as (n & ts & Hlen & Hts & ->).
  destruct ts as [|v [|p [|a [|pl [|? ?]]]]]; try discriminate.
  exists n, v, p, a, pl.
  inversion Hts as [|? ? Hv Hts1]; subst.
  inversion Hts1 as [|? ? Hp Hts2]; subst.
  inversion Hts2 as [|? ? Ha Hts3]; subst.
  inversion Hts3 as [|? ? Hpl _]; subst.
  repeat (split; [assumption || reflexivity|]).
  apply WheelPackage_tags, wheel_tags_join; assumption.
Qed.

(** Every filename with a dash is read as a source distribution, its
    version being what follows the last dash. *)
Lemma SourcePackage_of_dash f :
  1 <= count_occ ascii_dec f dash ->
  exists n v,
    f = PyStr.join (py "-") [n; v] /\ ~ In dash v /\
    SourcePackage f
    = inr (mkPackage n v (py "any") (py "py3") (py "none") (py "sdist")).
Proof.
  intros H. destruct (rsplit_exists 1 f H) as (n & ts & Hlen & Hts & ->).
  destruct ts as [|v [|? ?]]; try discriminate.
  exists n, v. inversion Hts as [|? ? Hv _]; subst.
  repeat (split; [assumption || reflexivity|]).
  apply SourcePackage_tags, sdist_tags_join; assumption.
Qed.

(** ** C1 *)

(** C1. A wheel filename made of a name (dashes allowed) followed by four
    dash-free fields parses to the record with that name and those fields as
    version, python tag, ABI tag and platform, in that order, of type wheel.
    By [WheelPackage_of_dashes] these are all the filenames with four
    dashes or more. *)
Theorem WheelPackage_fields n v p a pl :
  ~ In dash v -> ~ In dash p -> ~ In dash a -> ~ In dash pl ->
  WheelPackage (PyStr.join (py "-") [n; v; p; a; pl])
  = inr {| name := n; version := v; python := p; abi := a; platform := pl;
           type := py "wheel" |}.
Proof.
  intros Hv Hp Ha Hpl.
  apply WheelPackage_tags, wheel_tags_join; assumption.
Qed.

Lemma WheelPackage_fields_witness :
  WheelPackage (py "pytket-qiskit-0.4.1-py3-none-any")
  = inr {| name := py "pytket-qiskit"; version := py "0.4.1";
           python := py "py3"; abi := py "none"; platform := py "any";
           type := py "wheel" |}.
Proof.
  apply (WheelPackage_fields (py "pytket-qiskit") (py "0.4.1") (py "py3")
                             (py "none") (py "any"));
    absent.
Defined.

(** ** C2 *)

(** C2. A source distribution filename made of a name (dashes allowed), a
    dash and a dash-free version parses to the record with that name and
    version, python tag py3, ABI tag none, platform any and type sdist. *)
Theorem SourcePackage_fields n v :
  ~ In dash v ->
  SourcePackage (PyStr.join (py "-") [n; v])
  = inr {| name := n; version := v; python := py "py3"; abi := py "none";
           platform := py "any"; type := py "sdist" |}.
Proof.
  intros Hv. apply SourcePackage_tags, sdist_tags_join; assumption.
Qed.

Lemma SourcePackage_fields_witness :
  SourcePackage (py "pytket-qiskit-0.4.1")
  = inr {| name := py "pytket-qiskit"; version := py "0.4.1";
           python := py "py3"; abi := py "none"; platform := py "any";
           type := py "sdist" |}.
Proof.
  apply (SourcePackage_fields (py "pytket-qiskit") (py "0.4.1")).
  absent.
Defined.

(** ** C3 *)

Lemma not_In_count_occ (s : str) c :
  ~ In c s <-> count_occ ascii_dec s c = 0.
Proof. apply count_occ_not_In. Qed.

Lemma WheelPackage_cases f :
  (length (rtags 4 f) < 5 /\ WheelPackage f = inl TypeError) \/
  (length (rtags 4 f) = 5 /\ exists r, WheelPackage f = inr r).
Proof.
  assert (HL : 1 <= length (rtags 4 f) <= 5) by (rewrite length_rtags; lia).
  unfold WheelPackage.
  destruct (rtags 4 f) as [|a [|b [|c [|d [|e [|g t]]]]]]; simpl in *;
    try (left; split; [lia|reflexivity]); [right|lia].
  split; [reflexivity|eexists; reflexivity].
Qed.

Lemma SourcePackage_cases f :
  (length (rtags 1 f) < 2 /\ SourcePackage f = inl IndexError) \/
  (length (rtags 1 f) = 2 /\ exists r, SourcePackage f = inr r).
Proof.
  assert (HL : 1 <= length (rtags 1 f) <= 2) by (rewrite length_rtags; lia).
  unfold SourcePackage.
  destruct (rtags 1 f) as [|a [|b [|c t]]]; simpl in *;
    try (left; split; [lia|reflexivity]); [right|lia].
  split; [reflexivity|eexists; reflexivity].
Qed.

(** C3. The wheel parser raises (a [TypeError], from the constructor call)
    exactly when splitting from the right yields fewer than five parts, that
    is when the filename has fewer than four dashes; the source distribution
    parser raises (an [IndexError], from [tags[1]]) exactly when the filename
    has no dash.  A parser that raises produces no record, and on every
    other filename a record is produced. *)
Theorem parse_error_iff f :
  (WheelPackage f = inl TypeError <-> length (rtags 4 f) < 5) /\
  (length (rtags 4 f) < 5 <-> count_occ ascii_dec f dash < 4) /\
  (SourcePackage f = inl IndexError <-> ~ In dash f) /\
  (length (rtags 4 f) < 5 -> forall r, WheelPackage f <> inr r) /\
  (~ In dash f -> forall r, SourcePackage f <> inr r) /\
  (5 <= length (rtags 4 f) -> exists r, WheelPackage f = inr r) /\
  (In dash f -> exists r, SourcePackage f = inr r).
Proof.
  assert (H4 : length (rtags 4 f) < 5 <-> count_occ ascii_dec f dash < 4)
    by (rewrite length_rtags; lia).
  assert (H1 : length (rtags 1 f) < 2 <-> ~ In dash f)
    by (rewrite length_rtags, not_In_count_occ; lia).
  assert (H1' : length (rtags 1 f) = 2 <-> In dash f)
    by (rewrite length_rtags, (count_occ_In ascii_dec); lia).
  destruct (WheelPackage_cases f) as [[Hw Ew]|[Hw [rw Ew]]];
    destruct (SourcePackage_cases f) as [[Hs Es]|[Hs [rs Es]]];
    rewrite Ew, Es; repeat split; intros;
      try discriminate; try lia; try tauto; try (eexists; reflexivity).
Qed.

(** ** C4 *)

(** C4, as the claim states it, fails: a filename of four dashes is
    accepted as a wheel and gives a record with five empty fields. *)
Lemma empty_fields_counterexample :
  exists r, WheelPackage (py "----") = inr r /\ ~ all_fields_nonempty r.
Proof.
  eexists. split; [reflexivity|].
  unfold all_fields_nonempty. simpl. tauto.
Qed.

(** C4, amended. The parsers copy the parts of the filename into the record
    without checking them: the type of a parsed record is never empty (and a
    source distribution has the constants py3, none, any), and all six
    fields are non-empty exactly when the name and each dash-delimited field
    of the filename are non-empty.  Both parsers build the same record
    type. *)
Theorem parsed_fields_nonempty_iff n v p a pl :
  ~ In dash v -> ~ In dash p -> ~ In dash a -> ~ In dash pl ->
  (exists r, WheelPackage (PyStr.join (py "-") [n; v; p; a; pl]) = inr r /\
             type r = py "wheel" /\
             (all_fields_nonempty r <->
              n <> [] /\ v <> [] /\ p <> [] /\ a <> [] /\ pl <> [])) /\
  (exists r, SourcePackage (PyStr.join (py "-") [n; v]) = inr r /\
             type r = py "sdist" /\ python r = py "py3" /\
             abi r = py "none" /\ platform r = py "any" /\
             (all_fields_nonempty r <-> n <> [] /\ v <> [])).
Proof.
  intros Hv Hp Ha Hpl. split.
  - eexists. split; [apply WheelPackage_tags, wheel_tags_join; assumption|].
    split; [reflexivity|].
    unfold all_fields_nonempty; simpl. intuition discriminate.
  - eexists. split; [apply SourcePackage_tags, sdist_tags_join; assumption|].
    repeat (split; [reflexivity|]).
    unfold all_fields_nonempty; simpl. intuition discriminate.
Qed.

Lemma parsed_fields_nonempty_iff_witness :
  (exists r, WheelPackage (py "-0.5.3-cp38-none-linux_x86_64") = inr r /\
             type r = py "wheel" /\
             (all_fields_nonempty r <->
              @nil ascii <> [] /\ py "0.5.3" <> [] /\ py "cp38" <> [] /\
              py "none" <> [] /\ py "linux_x86_64" <> [])) /\
  (exists r, SourcePackage (py "-0.5.3") = inr r /\
             type r = py "sdist" /\ python r = py "py3" /\
             abi r = py "none" /\ platform r = py "any" /\
             (all_fields_nonempty r <-> @nil ascii <> [] /\ py "0.5.3" <> [])).
Proof.
  apply (parsed_fields_nonempty_iff [] (py "0.5.3") (py "cp38") (py "none")
                                    (py "linux_x86_64"));
    absent.
Defined.

(* ================================================================== *)
(** ** String predicates *)

Lemma eqb_eq a b : PyStr.eqb a b = true <-> a = b.
Proof.
  revert b; induction a as [|x a IH]; intros [|y b]; simpl;
    try (split; [discriminate|discriminate]); [tauto|].
  rewrite andb_true_iff, Ascii.eqb_eq, IH.
  split; [intros [-> ->]; reflexivity|intros [= -> ->]; tauto].
Qed.

Lemma N_of_ascii_inj x y : N_of_ascii x = N_of_ascii y -> x = y.
Proof.
  intros H. rewrite <- (ascii_N_embedding x), <- (ascii_N_embedding y), H.
  reflexivity.
Qed.

Lemma leb_lex a b : PyStr.leb a b = true <-> lex_le a b.
Proof.
  unfold PyStr.leb. revert b; induction a as [|x a IH]; intros [|y b]; simpl.
  - split; [constructor|reflexivity].
  - split; [constructor|reflexivity].
  - split; [discriminate|inversion 1].
  - destruct (N.compare_spec (N_of_ascii x) (N_of_ascii y)) as [E|L|G].
    + apply N_of_ascii_inj in E. subst y. rewrite IH.
      split; [constructor; assumption|].
      inversion 1; subst; [lia|assumption].
    + split; [constructor; assumption|reflexivity].
    + split; [discriminate|].
      inversion 1; subst; lia.
Qed.

Lemma startswith_prefix s p :
  PyStr.startswith s p = true <-> exists post, s = p ++ post.
Proof.
  revert s; induction p as [|c p IH]; intros s; simpl.
  - split; [exists s; reflexivity|reflexivity].
  - destruct s as [|d s].
    + split; [discriminate|intros [post [=]]].
    + rewrite andb_true_iff, Ascii.eqb_eq, IH. split.
      * intros [-> [post ->]]. exists post. reflexivity.
      * intros [post [= -> ->]]. split; [reflexivity|exists post; reflexivity].
Qed.

Lemma contains_substring sub s :
  PyStr.contains sub s = true <-> substring sub s.
Proof.
  unfold substring. induction s as [|c s IH]; simpl.
  - rewrite orb_false_r, startswith_prefix. split.
    + intros [post H]. exists [], post. exact H.
    + intros ([|d pre] & post & H); [exists post; exact H|discriminate].
  - rewrite orb_true_iff, startswith_prefix, IH. split.
    + intros [[post H]|(pre & post & ->)].
      * exists [], post. exact H.
      * exists (c :: pre), post. reflexivity.
    + intros ([|d pre] & post & H).
      * left. exists post. exact H.
      * right. injection H as -> ->. exists pre, post. reflexivity.
Qed.

(** ** Filtering *)

Lemma filter_keeps (P : Package -> Prop) f l :
  (forall x, f x = true <-> P x) -> keeps P l (filter f l).
Proof.
  intros H. induction l as [|x l IH]; simpl; [constructor|].
  destruct (f x) eqn:E.
  - apply keeps_take; [apply H; exact E|exact IH].
  - apply keeps_drop; [rewrite <- H, E; discriminate|exact IH].
Qed.

Lemma keeps_all (P : Package -> Prop) l : (forall x, P x) -> keeps P l l.
Proof. intros H. induction l; constructor; auto. Qed.

(** What [keeps] means for membership. *)
Lemma keeps_In (P : Package -> Prop) l out x :
  keeps P l out -> (In x out <-> In x l /\ P x).
Proof.
  induction 1 as [|y l out Hy _ IH|y l out Hy _ IH]; simpl.
  - tauto.
  - rewrite IH. split; [intros [->|?]; tauto|tauto].
  - rewrite IH. split; [tauto|intros [[->|?] ?]; tauto].
Qed.

(** [keeps] determines its output. *)
Lemma keeps_unique (P : Package -> Prop) l out out' :
  keeps P l out -> keeps P l out' -> out = out'.
Proof.
  intros H; revert out'. induction H; intros out' H'; inversion H'; subst;
    try reflexivity; try contradiction; auto using f_equal.
Qed.

(** ** C5 *)

(** C5. With only the version filter set: a single value keeps exactly the
    records whose version equals it; two values keep exactly the records
    whose version lies between them in the lexicographic order, both ends
    included.  For the range 0.5.2 .. 0.5.4 a record of version 0.5.3 is
    kept and one of version 0.5.5 is not. *)
Theorem version_filter_keeps pkgs v low high :
  (exists out,
     filter_packages (mkArgs None (Some [v]) None None) (inr pkgs) = inr out /\
     keeps (fun x => version x = v) pkgs out) /\
  (exists out,
     filter_packages (mkArgs None (Some [low; high]) None None) (inr pkgs)
     = inr out /\
     keeps (fun x => lex_le low (version x) /\ lex_le (version x) high)
           pkgs out) /\
  (forall r, version r = py "0.5.3" ->
     filter_packages (mkArgs None (Some [py "0.5.2"; py "0.5.4"]) None None)
                     (inr [r]) = inr [r]) /\
  (forall r, version r = py "0.5.5" ->
     filter_packages (mkArgs None (Some [py "0.5.2"; py "0.5.4"]) None None)
                     (inr [r]) = inr []).
Proof.
  repeat split.
  - eexists. split; [reflexivity|].
    apply filter_keeps. intros x. apply eqb_eq.
  - eexists. split; [reflexivity|].
    apply filter_keeps. intros x. simpl.
    rewrite andb_true_iff, !leb_lex. tauto.
  - intros r H. cbn. rewrite H. reflexivity.
  - intros r H. cbn. rewrite H. reflexivity.
Qed.

(** ** C6 *)

Lemma pyver_convert_major_minor X Y :
  ~ In "."%char X -> ~ In "."%char Y ->
  pyver_convert (X ++ py "." ++ Y) = inr (py "cp" ++ X ++ Y).
Proof.
  intros HX HY. unfold pyver_convert.
  change (X ++ py "." ++ Y) with (X ++ "."%char :: Y).
  rewrite split_first_nolimit by exact HX.
  rewrite split_nosep by exact HY. reflexivity.
Qed.

Lemma filter_packages_pyver s t pkgs :
  s <> [] -> pyver_convert s = inr t ->
  filter_packages (mkArgs None None (Some s) None) (inr pkgs)
  = inr (filter (fun x => PyStr.eqb (python x) t) pkgs).
Proof.
  intros Hs Ht. destruct s as [|c s]; [contradiction|].
  unfold filter_packages. cbn [arg_pyver bind]. rewrite Ht. reflexivity.
Qed.

(** C6. A python version X.Y (X and Y without a dot) is converted to the
    tag cpXY, and with only this filter set exactly the records whose python
    tag is cpXY are kept.  On the listing of the pytket wheel and source
    distribution, the name pytket and the python version 3.8 return the
    wheel record alone, whose python tag is cp38. *)
Theorem pyver_filter_keeps X Y pkgs :
  ~ In "."%char X -> ~ In "."%char Y ->
  pyver_convert (X ++ py "." ++ Y) = inr (py "cp" ++ X ++ Y) /\
  (exists out,
     filter_packages (mkArgs None None (Some (X ++ py "." ++ Y)) None)
                     (inr pkgs) = inr out /\
     keeps (fun x => python x = py "cp" ++ X ++ Y) pkgs out) /\
  get_filtered_packages
    (mkArgs (Some (py "pytket")) None (Some (py "3.8")) None) pytket_listing
  = inr [pytket_wheel] /\
  python pytket_wheel = py "cp38".
Proof.
  intros HX HY.
  pose proof (pyver_convert_major_minor X Y HX HY) as Hc.
  split; [exact Hc|]. split; [|split; reflexivity].
  eexists. split.
  - apply filter_packages_pyver; [|exact Hc].
    destruct X; discriminate.
  - apply filter_keeps. intros x. apply eqb_eq.
Qed.

Lemma pyver_filter_keeps_witness :
  pyver_convert (py "3.8") = inr (py "cp38") /\
  (exists out,
     filter_packages (mkArgs None None (Some (py "3.8")) None)
                     (inr [pytket_wheel; pytket_sdist]) = inr out /\
     keeps (fun x => python x = py "cp38") [pytket_wheel; pytket_sdist] out) /\
  get_filtered_packages
    (mkArgs (Some (py "pytket")) None (Some (py "3.8")) None) pytket_listing
  = inr [pytket_wheel] /\
  python pytket_wheel = py "cp38".
Proof.
  apply (pyver_filter_keeps (py "3") (py "8") [pytket_wheel; pytket_sdist]);
    absent.
Defined.

(** ** C7 *)

(** C7. With only the platform filter set, exactly the records are kept
    whose platform contains the filter value as a substring or is the
    string any; a record with platform any is kept whatever the value. *)
Theorem platform_filter_keeps pkgs v :
  exists out,
    filter_packages (mkArgs None None None (Some v)) (inr pkgs) = inr out /\
    keeps (fun x => substring v (platform x) \/ platform x = py "any")
          pkgs out /\
    (forall x, In x pkgs -> platform x = py "any" -> In x out).
Proof.
  assert (H : exists out,
    filter_packages (mkArgs None None None (Some v)) (inr pkgs) = inr out /\
    keeps (fun x => substring v (platform x) \/ platform x = py "any")
          pkgs out).
  { destruct v as [|c v].
    - exists pkgs. split; [reflexivity|].
      apply keeps_all. intros x. left. exists [], (platform x). reflexivity.
    - eexists. split; [reflexivity|].
      apply filter_keeps. intros x. unfold platform_filter.
      rewrite orb_true_iff, contains_substring, eqb_eq. tauto. }
  destruct H as (out & E & K). exists out. repeat split; [exact E|exact K|].
  intros x Hx Hany. apply (keeps_In _ _ _ x K). tauto.
Qed.

(** ** C10 *)

(** C10. An empty string given as name, python version or platform leaves
    the filter chain as it is without that option, whatever the other
    options and the listing are; with all three empty and no version filter
    every record passes. *)
Theorem empty_filter_is_unset n ver pyv plat packages :
  filter_packages (mkArgs (Some []) ver pyv plat) packages
  = filter_packages (mkArgs None ver pyv plat) packages /\
  filter_packages (mkArgs n ver (Some []) plat) packages
  = filter_packages (mkArgs n ver None plat) packages /\
  filter_packages (mkArgs n ver pyv (Some [])) packages
  = filter_packages (mkArgs n ver pyv None) packages /\
  (forall pkgs,
     filter_packages (mkArgs (Some []) None (Some []) (Some [])) (inr pkgs)
     = inr pkgs).
Proof. repeat split. Qed.

(* ================================================================== *)
(** ** The table printer *)

(** ** C8 *)

(** C8. When the filters leave no record, the list command prints the line
    "No packages found matching filters" and exits with status 1; what it
    prints is not the table without records.  A call of the printer returns
    without exiting, and prints the table, exactly when it is given a
    non-empty sequence. *)
Theorem empty_result_exits args readlines :
  get_filtered_packages args readlines = inr [] ->
  (exists o, package_list args readlines = inr o /\
             stdout o = print (py "No packages found matching filters") /\
             exit_status o = Some 1%Z /\
             stdout o <> print (PyStr.join [newline] (rows []))) /\
  (forall pkgs, exit_status (print_package_list pkgs) = None <-> pkgs <> []) /\
  (forall pkgs, stdout (print_package_list pkgs)
                = print (PyStr.join [newline] (rows pkgs)) <-> pkgs <> []).
Proof.
  intros H. split; [|split].
  - unfold package_list. rewrite H. eexists. split; [reflexivity|].
    split; [reflexivity|]. split; [reflexivity|]. discriminate.
  - intros [|p pkgs]; simpl; split; congruence.
  - intros [|p pkgs]; split; try congruence; try reflexivity.
    intros E. exfalso. revert E. discriminate.
Qed.

Lemma empty_result_exits_witness :
  (exists o, package_list (mkArgs (Some (py "qiskit")) None None None)
                          pytket_listing = inr o /\
             stdout o = print (py "No packages found matching filters") /\
             exit_status o = Some 1%Z /\
             stdout o <> print (PyStr.join [newline] (rows []))) /\
  (forall pkgs, exit_status (print_package_list pkgs) = None <-> pkgs <> []) /\
  (forall pkgs, stdout (print_package_list pkgs)
                = print (PyStr.join [newline] (rows pkgs)) <-> pkgs <> []).
Proof.
  apply (empty_result_exits (mkArgs (Some (py "qiskit")) None None None)
                            pytket_listing).
  reflexivity.
Defined.

(** ** C9 *)

Lemma list_max_cons x l : list_max (x :: l) = Nat.max x (list_max l).
Proof. reflexivity. Qed.

Lemma column_table_width pkgs a :
  list_max (map (fun pack => length (getattr pack a)) (table_packages pkgs))
  = table_width pkgs a.
Proof.
  unfold table_packages, table_width. cbn [map app].
  rewrite !list_max_cons.
  assert (Hs : length (getattr sepackage a) = 8) by (destruct a; reflexivity).
  assert (Ht : length (getattr titlepackage a) <= 8) by (destruct a; cbn; lia).
  lia.
Qed.

Lemma widths_table_width pkgs : widths pkgs = map (table_width pkgs) attrs.
Proof. unfold widths. apply map_ext. intros a. apply column_table_width. Qed.

Lemma row_cells ws pack (w : Attr -> nat) :
  ws = map w attrs ->
  row ws pack
  = PyStr.join (py " ") (map (fun a => PyStr.rjust (w a) (getattr pack a)) attrs).
Proof. intros ->. reflexivity. Qed.

Lemma rjust_aligned w s : length s <= w -> right_aligned w s (PyStr.rjust w s).
Proof.
  intros H. unfold right_aligned, PyStr.rjust. split.
  - rewrite length_app, repeat_length. lia.
  - eexists. reflexivity.
Qed.

Lemma list_max_In (f : Package -> nat) p l : In p l -> f p <= list_max (map f l).
Proof.
  induction l as [|q l IH]; simpl; [contradiction|].
  intros [->|H]; [lia|]. specialize (IH H). lia.
Qed.

(** The table of the specification is the printed one when every column
    has a value of eight characters or more. *)
Example table_as_specified_wide :
  table_as_specified [wide_package] (rows [wide_package]).
Proof.
  eexists _, _, _. split; [reflexivity|].
  split; [vm_compute; reflexivity|]. split; [|reflexivity].
  apply Forall_forall. vm_compute.
  repeat (apply Forall_cons; [auto|]). apply Forall_nil.
Qed.

(** The record of the counterexample is the one parsed from [a-1.tar.gz]. *)
Example short_package_parsed :
  get_filtered_packages (mkArgs None None None None) [anchor (py "a-1.tar.gz")]
  = inr [short_package].
Proof. reflexivity. Qed.

(** What is printed for that record: every column is eight wide. *)
Example rows_short_package :
  rows [short_package]
  = [py "    name  version   python platform     type";
     py "======== ======== ======== ======== ========";
     py "       a        1      py3      any    sdist"].
Proof. reflexivity. Qed.

(** C9, as the claim states it, fails: for a record whose values are all
    shorter than the header texts the columns are eight wide, not as wide
    as the longest of the header text and the values. *)
Lemma table_width_counterexample :
  ~ table_as_specified [short_package] (rows [short_package]).
Proof.
  intros (header & sep & body & E & Hh & _). subst header.
  revert E. vm_compute. discriminate.
Qed.

(** C9, amended. For a non-empty sequence the printer writes the header
    row, the separator row and one row per record, in this order; the cells
    of a row are joined by one space; a column is as wide as its longest
    record value and at least eight wide, eight being the length of every
    cell of the separator row, which is made of [=] characters; and every
    cell (header text, separator cell, record value) is right-aligned to the
    width of its column. *)
Theorem print_package_list_table pkgs :
  pkgs <> [] ->
  let line (cell : Attr -> str) :=
    PyStr.join (py " ")
      (map (fun a => PyStr.rjust (table_width pkgs a) (cell a)) attrs) in
  let cells :=
    attr_str :: (fun _ => repeat "="%char 8) :: map getattr pkgs in
  print_package_list pkgs
  = mkOutcome (print (PyStr.join [newline] (map line cells))) None /\
  (forall cell a, In cell cells ->
     right_aligned (table_width pkgs a) (cell a)
                   (PyStr.rjust (table_width pkgs a) (cell a))).
Proof.
  intros Hne line cells. split.
  - destruct pkgs as [|p pkgs]; [contradiction|].
    unfold print_package_list, rows, table_packages.
    rewrite widths_table_width. subst line cells.
    cbn [map app]. rewrite map_map. reflexivity.
  - intros cell a Hin. apply rjust_aligned. unfold table_width.
    destruct Hin as [<-|[<-|Hin]].
    + assert (length (attr_str a) <= 8) by (destruct a; cbn; lia). lia.
    + rewrite repeat_length. lia.
    + apply in_map_iff in Hin. destruct Hin as (q & <- & Hq).
      pose proof (list_max_In (fun p => length (getattr p a)) q pkgs Hq). lia.
Qed.

Lemma print_package_list_table_witness :
  let line (cell : Attr -> str) :=
    PyStr.join (py " ")
      (map (fun a => PyStr.rjust (table_width [short_package] a) (cell a))
           attrs) in
  let cells :=
    attr_str :: (fun _ => repeat "="%char 8) :: map getattr [short_package] in
  print_package_list [short_package]
  = mkOutcome (print (PyStr.join [newline] (map line cells))) None /\
  (forall cell a, In cell cells ->
     right_aligned (table_width [short_package] a) (cell a)
                   (PyStr.rjust (table_width [short_package] a) (cell a))).
Proof.
  apply (print_package_list_table [short_package]). discriminate.
Defined.

(* ================================================================== *)
(** ** The filter chain as a whole *)

Lemma keeps_compose (P Q : Package -> Prop) l m out :
  keeps P l m -> keeps Q m out -> keeps (fun x => P x /\ Q x) l out.
Proof.
  intros H; revert out.
  induction H as [|x l m Hx _ IH|x l m Hx _ IH]; intros out HQ.
  - inversion HQ; subst. constructor.
  - inversion HQ; subst.
    + apply keeps_take; [tauto|apply IH; assumption].
    + apply keeps_drop; [tauto|apply IH; assumption].
  - apply keeps_drop; [tauto|apply IH; assumption].
Qed.

Lemma keeps_ext (P Q : Package -> Prop) l out :
  (forall x, P x <-> Q x) -> keeps P l out -> keeps Q l out.
Proof.
  intros E. induction 1; constructor; try assumption; rewrite <- E; assumption.
Qed.

(** What was kept is kept again. *)
Lemma keeps_fixed (P : Package -> Prop) l out : keeps P l out -> keeps P out out.
Proof. induction 1; try constructor; assumption. Qed.

Lemma filter_packages_tag_error args e packages :
  filter_tag args = inl e -> filter_packages args packages = inl e.
Proof.
  unfold filter_packages, filter_tag. intros ->. reflexivity.
Qed.

Lemma filter_true (l : list Package) : filter (fun _ => true) l = l.
Proof. induction l as [|x l IH]; simpl; [|rewrite IH]; reflexivity. Qed.

Lemma filter_filter (f g : Package -> bool) l :
  filter f (filter g l) = filter (fun x => g x && f x) l.
Proof.
  induction l as [|x l IH]; simpl; [reflexivity|].
  destruct (g x); simpl; [destruct (f x)|]; rewrite IH; reflexivity.
Qed.

Lemma filter_idempotent (f : Package -> bool) l :
  filter f (filter f l) = filter f l.
Proof.
  rewrite filter_filter. apply filter_ext. intros x. destruct (f x); reflexivity.
Qed.

(** The chain is one pass with the conjunction of the installed tests. *)
Lemma filter_packages_passb args cpver pkgs :
  filter_tag args = inr cpver ->
  filter_packages args (inr pkgs) = inr (filter (passb args cpver) pkgs).
Proof.
  unfold filter_packages, filter_tag. intros ->. cbn [bind ret]. f_equal.
  unfold passb. rewrite <- !filter_filter.
  destruct (arg_name args) as [[|c n]|], (arg_version args) as [[|v vs]|],
           cpver as [t|], (arg_platform args) as [[|c' p]|];
    rewrite ?filter_true; reflexivity.
Qed.

Lemma passb_passes args cpver x :
  passb args cpver x = true <-> passes args cpver x.
Proof.
  unfold passb, passes. rewrite !andb_true_iff.
  destruct (arg_name args) as [[|c n]|], (arg_version args) as [[|v [|h vs]]|],
           cpver as [t|], (arg_platform args) as [[|c' p]|];
    unfold platform_filter; simpl;
    rewrite ?andb_true_iff, ?orb_true_iff, ?eqb_eq, ?leb_lex,
            ?contains_substring;
    intuition congruence.
Qed.

Lemma filter_packages_keeps args cpver pkgs :
  filter_tag args = inr cpver ->
  exists out, filter_packages args (inr pkgs) = inr out /\
              keeps (passes args cpver) pkgs out.
Proof.
  intros H. eexists. split; [apply filter_packages_passb; exact H|].
  apply filter_keeps. intros x. apply passb_passes.
Qed.

(** X1. With any combination of options, the records returned are exactly
    those of the listing that pass every installed filter at once (name,
    version or version range, python tag, platform), in listing order;
    [cpver] is the tag computed from the python version option. *)
Theorem filters_conjunction args cpver pkgs :
  filter_tag args = inr cpver ->
  exists out, filter_packages args (inr pkgs) = inr out /\
              keeps (passes args cpver) pkgs out.
Proof. apply filter_packages_keeps. Qed.

Lemma filters_conjunction_witness :
  exists out,
    filter_packages
      (mkArgs (Some (py "pytket")) (Some [py "0.5.2"; py "0.5.4"])
              (Some (py "3.8")) (Some (py "linux")))
      (inr [pytket_wheel; pytket_sdist]) = inr out /\
    keeps (passes (mkArgs (Some (py "pytket")) (Some [py "0.5.2"; py "0.5.4"])
                          (Some (py "3.8")) (Some (py "linux")))
                  (Some (py "cp38")))
          [pytket_wheel; pytket_sdist] out.
Proof.
  apply (filters_conjunction
           (mkArgs (Some (py "pytket")) (Some [py "0.5.2"; py "0.5.4"])
                   (Some (py "3.8")) (Some (py "linux")))
           (Some (py "cp38")) [pytket_wheel; pytket_sdist]).
  reflexivity.
Defined.

(** X2. Filtering is idempotent: running the filter chain on its own result
    with the same options gives the same result, an exception included. *)
Theorem filter_packages_idempotent args pkgs :
  filter_packages args (filter_packages args (inr pkgs))
  = filter_packages args (inr pkgs).
Proof.
  destruct (filter_tag args) as [e|cpver] eqn:E.
  - rewrite !(filter_packages_tag_error args e) by exact E. reflexivity.
  - rewrite (filter_packages_passb args cpver pkgs E).
    rewrite (filter_packages_passb args cpver _ E).
    rewrite filter_idempotent. reflexivity.
Qed.

(** ** The python version option *)

(** A string with a separator splits at its first one. *)
Lemma first_sep (sep : ascii) s :
  In sep s -> exists a b, s = a ++ sep :: b /\ ~ In sep a.
Proof.
  induction s as [|c s IH]; simpl; [contradiction|].
  destruct (ascii_dec c sep) as [->|Hne].
  - intros _. exists [], s. split; [reflexivity|tauto].
  - intros [H|H]; [contradiction|].
    destruct (IH H) as (a & b & -> & Ha).
    exists (c :: a), b. split; [reflexivity|].
    simpl. intros [?|?]; [contradiction|tauto].
Qed.

Lemma pyver_convert_error s :
  pyver_convert s = inl IndexError <-> ~ In "."%char s.
Proof.
  unfold pyver_convert. split.
  - intros H Hin. destruct (first_sep _ _ Hin) as (a & b & -> & Ha).
    rewrite split_first_nolimit in H by exact Ha.
    pose proof (split_not_nil "."%char None b) as Hb.
    destruct (PyStr.split "."%char None b); [contradiction|discriminate].
  - intros H. rewrite split_nosep by exact H. reflexivity.
Qed.

(** X3. A python version option without a dot makes the conversion to a tag
    raise [IndexError]; the conversion raises in no other case.  With such
    an option (not empty) the listing is never returned, whatever the other
    options and whatever the listing holds. *)
Theorem pyver_without_dot s :
  (pyver_convert s = inl IndexError <-> ~ In "."%char s) /\
  (forall e, pyver_convert s = inl e -> e = IndexError) /\
  (s <> [] -> ~ In "."%char s ->
   forall n ver plat readlines,
     get_filtered_packages (mkArgs n ver (Some s) plat) readlines
     = inl IndexError).
Proof.
  split; [apply pyver_convert_error|]. split.
  - unfold pyver_convert. intros e.
    destruct (PyStr.split "."%char None s) as [|a [|b r]]; intros [=]; auto.
  - intros Hs Hdot n ver plat readlines.
    apply filter_packages_tag_error. unfold filter_tag. simpl arg_pyver.
    destruct s as [|c v]; [contradiction|].
    apply pyver_convert_error in Hdot. rewrite Hdot. reflexivity.
Qed.

(** X4. Only the first two components of the python version option are
    used: X.Y followed by a dot and anything else is converted to the tag
    cpXY as X.Y is. *)
Theorem pyver_extra_components X Y rest :
  ~ In "."%char X -> ~ In "."%char Y ->
  pyver_convert (X ++ py "." ++ Y ++ py "." ++ rest)
  = inr (py "cp" ++ X ++ Y).
Proof.
  intros HX HY. unfold pyver_convert.
  change (X ++ py "." ++ Y ++ py "." ++ rest)
    with (X ++ "."%char :: Y ++ "."%char :: rest).
  rewrite !split_first_nolimit by assumption. reflexivity.
Qed.

Lemma pyver_extra_components_witness :
  pyver_convert (py "3.8.1") = inr (py "cp38").
Proof.
  apply (pyver_extra_components (py "3") (py "8") (py "1")); absent.
Defined.

(** ** A reversed version range *)

Lemma lex_le_trans a b c : lex_le a b -> lex_le b c -> lex_le a c.
Proof.
  intros H; revert c. induction H as [b|x y a b L|x a b _ IH]; intros c H'.
  - constructor.
  - inversion H'; subst.
    + apply lex_le_lt. lia.
    + apply lex_le_lt. assumption.
  - inversion H'; subst.
    + apply lex_le_lt. assumption.
    + apply lex_le_eq. apply IH. assumption.
Qed.

(** X5. A version range given in the wrong order is not swapped: when
    [low <= high] does not hold in the lexicographic order, no record
    passes the version filter. *)
Theorem reversed_range_keeps_nothing low high pkgs :
  ~ lex_le low high ->
  filter_packages (mkArgs None (Some [low; high]) None None) (inr pkgs)
  = inr [].
Proof.
  intros H.
  destruct (filter_packages_keeps
              (mkArgs None (Some [low; high]) None None) None pkgs eq_refl)
    as (out & -> & K).
  f_equal. destruct out as [|x out]; [reflexivity|exfalso].
  assert (Hx : In x (x :: out)) by (left; reflexivity).
  apply (keeps_In _ _ _ x K) in Hx. destruct Hx as [_ (_ & [H1 H2] & _)].
  apply H. eapply lex_le_trans; eassumption.
Qed.

Lemma reversed_range_keeps_nothing_witness :
  filter_packages (mkArgs None (Some [py "0.5.4"; py "0.5.2"]) None None)
                  (inr [pytket_wheel; pytket_sdist])
  = inr [].
Proof.
  apply (reversed_range_keeps_nothing (py "0.5.4") (py "0.5.2")
                                      [pytket_wheel; pytket_sdist]).
  intros H. apply leb_lex in H. discriminate.
Defined.

(* ================================================================== *)
(** ** Reading the listing *)

Lemma lstrip_spaces lead s :
  Forall (fun c => PyStr.isspace c = true) lead ->
  PyStr.lstrip (lead ++ s) = PyStr.lstrip s.
Proof.
  induction 1 as [|c lead Hc _ IH]; simpl; [reflexivity|].
  rewrite Hc. exact IH.
Qed.

Lemma lstrip_app_nonspace x c y :
  PyStr.isspace c = false ->
  PyStr.lstrip (x ++ c :: y) = PyStr.lstrip x ++ c :: y.
Proof.
  intros Hc. induction x as [|d x IH]; simpl.
  - rewrite Hc. reflexivity.
  - destruct (PyStr.isspace d); [exact IH|reflexivity].
Qed.

(** Stripping a line that, after leading whitespace, starts with the
    non-blank [c0] and has a non-blank [c] further on: only the whitespace
    at the end of what follows [c] goes. *)
Lemma strip_core lead c0 x c y :
  Forall (fun c => PyStr.isspace c = true) lead ->
  PyStr.isspace c0 = false -> PyStr.isspace c = false ->
  PyStr.strip (lead ++ c0 :: x ++ c :: y)
  = c0 :: x ++ c :: rev (PyStr.lstrip (rev y)).
Proof.
  intros Hlead H0 Hc. unfold PyStr.strip.
  rewrite lstrip_spaces by exact Hlead.
  change (c0 :: x ++ c :: y) with ([] ++ c0 :: x ++ c :: y).
  rewrite (lstrip_app_nonspace [] c0) by exact H0. simpl app.
  change (c0 :: x ++ c :: y) with ((c0 :: x) ++ c :: y).
  rewrite rev_app_distr. simpl rev at 1. rewrite <- app_assoc. simpl app.
  rewrite lstrip_app_nonspace by exact Hc.
  rewrite rev_app_distr. simpl rev at 1.
  rewrite rev_app_distr, rev_involutive. simpl.
  rewrite <- app_assoc. reflexivity.
Qed.

Lemma find_char c p q :
  ~ In c p -> PyStr.find (p ++ c :: q) [c] = Z.of_nat (length p).
Proof.
  induction p as [|d p IH]; intros H.
  - simpl. rewrite Ascii.eqb_refl. reflexivity.
  - simpl in H. cbn [app PyStr.find PyStr.startswith length].
    destruct (Ascii.eqb_spec c d) as [->|_]; [tauto|].
    cbn [andb]. rewrite IH by tauto.
    destruct (Z.ltb_spec (Z.of_nat (length p)) 0); lia.
Qed.

Lemma find_absent c s : ~ In c s -> PyStr.find s [c] = (-1)%Z.
Proof.
  induction s as [|d s IH]; intros H; [reflexivity|].
  simpl in H. cbn [PyStr.find PyStr.startswith].
  destruct (Ascii.eqb_spec c d) as [->|_]; [tauto|].
  cbn [andb]. rewrite IH by tauto. reflexivity.
Qed.

Lemma slice_from_after (p : str) c q :
  PyStr.slice_from (p ++ c :: q) (Z.of_nat (length p) + 1) = q.
Proof.
  unfold PyStr.slice_from, PyStr.bound. rewrite length_app. simpl length.
  destruct (Z.ltb_spec (Z.of_nat (length p) + 1) 0); [lia|].
  replace (Z.to_nat _) with (length p + 1) by lia.
  rewrite skipn_app, Nat.add_comm.
  replace (1 + length p - length p) with 1 by lia.
  rewrite skipn_all2 by lia. reflexivity.
Qed.

Lemma slice_to_before (p : str) c q :
  PyStr.slice_to (p ++ c :: q) (Z.of_nat (length p)) = p.
Proof.
  unfold PyStr.slice_to, PyStr.bound. rewrite length_app. simpl length.
  destruct (Z.ltb_spec (Z.of_nat (length p)) 0); [lia|].
  replace (Z.to_nat _) with (length p + 0) by lia.
  rewrite firstn_app_2. simpl. apply app_nil_r.
Qed.

(** [s[:-1]] *)
Lemma slice_to_minus_one (s : str) : PyStr.slice_to s (-1) = removelast s.
Proof.
  unfold PyStr.slice_to, PyStr.bound. cbv zeta.
  change (-1 <? 0)%Z with true. cbv iota.
  rewrite removelast_firstn_len. f_equal. lia.
Qed.

Lemma href_names lead attrs text :
  Forall (fun c => PyStr.isspace c = true) lead ->
  ~ In ">"%char attrs ->
  map (fun l => PyStr.slice_from l (PyStr.find l (py ">") + 1))
      (filter (fun l => PyStr.startswith l (py "<a href"))
              (map PyStr.strip
                   [lead ++ py "<a href" ++ attrs ++ py ">" ++ text]))
  = [rev (PyStr.lstrip (rev text))].
Proof.
  intros Hlead Hattrs.
  change (lead ++ py "<a href" ++ attrs ++ py ">" ++ text)
    with (lead ++ "<"%char :: (py "a href" ++ attrs) ++ ">"%char :: text).
  cbn [map]. rewrite strip_core by (exact Hlead || reflexivity).
  set (rest := rev (PyStr.lstrip (rev text))).
  change ("<"%char :: (py "a href" ++ attrs) ++ ">"%char :: rest)
    with ((py "<a href" ++ attrs) ++ ">"%char :: rest).
  assert (Hs : PyStr.startswith ((py "<a href" ++ attrs) ++ ">"%char :: rest)
                                (py "<a href") = true).
  { apply startswith_prefix. eexists. rewrite <- app_assoc. reflexivity. }
  cbn [filter]. rewrite Hs. cbn [map]. f_equal.
  change (py ">") with [">"%char].
  rewrite find_char.
  - apply slice_from_after.
  - intros H. apply in_app_or in H. destruct H as [H|H]; [|tauto].
    revert H. absent.
Qed.

(** X6. A line of the listing that, after optional leading whitespace,
    starts with [<a href] gives the text between its first [>] and the next
    [<] as file name, whatever follows. *)
Theorem listing_names_anchor lead attrs fname rest :
  Forall (fun c => PyStr.isspace c = true) lead ->
  ~ In ">"%char attrs -> ~ In "<"%char fname ->
  listing_names
    [lead ++ py "<a href" ++ attrs ++ py ">" ++ fname ++ py "<" ++ rest]
  = [fname].
Proof.
  intros Hlead Hattrs Hname. unfold listing_names.
  rewrite href_names by assumption.
  change (fname ++ py "<" ++ rest) with (fname ++ "<"%char :: rest).
  rewrite rev_app_distr. simpl rev at 1. rewrite <- app_assoc. simpl app.
  rewrite lstrip_app_nonspace by reflexivity.
  rewrite rev_app_distr. simpl rev at 1. rewrite rev_involutive.
  rewrite <- app_assoc. simpl app.
  cbn [map]. f_equal. change (py "<") with ["<"%char].
  rewrite find_char by exact Hname. apply slice_to_before.
Qed.

Lemma listing_names_anchor_witness :
  listing_names
    [py "  <a href=/packages/pytket-0.5.3.tar.gz>pytket-0.5.3.tar.gz</a><br>"]
  = [py "pytket-0.5.3.tar.gz"].
Proof.
  apply (listing_names_anchor (py "  ") (py "=/packages/pytket-0.5.3.tar.gz")
           (py "pytket-0.5.3.tar.gz") (py "/a><br>")).
  - repeat constructor.
  - absent.
  - absent.
Defined.

(** X7. When no [<] follows the first [>] of such a line, the file name is
    the rest of the line, without the whitespace at its end, less its last
    character. *)
Theorem listing_names_unclosed lead attrs text :
  Forall (fun c => PyStr.isspace c = true) lead ->
  ~ In ">"%char attrs -> ~ In "<"%char text ->
  listing_names [lead ++ py "<a href" ++ attrs ++ py ">" ++ text]
  = [removelast (rev (PyStr.lstrip (rev text)))].
Proof.
  intros Hlead Hattrs Htext. unfold listing_names.
  rewrite href_names by assumption.
  cbn [map]. f_equal. change (py "<") with ["<"%char].
  rewrite find_absent; [apply slice_to_minus_one|].
  intros H. apply in_rev in H.
  assert (Hincl : forall s, In "<"%char (PyStr.lstrip s) -> In "<"%char s).
  { induction s as [|d s IH]; simpl; [tauto|].
    destruct (PyStr.isspace d); simpl; tauto. }
  apply Hincl in H. apply in_rev in H. contradiction.
Qed.

Lemma listing_names_unclosed_witness :
  listing_names [py "<a href=/packages/pytket-0.5.3.tar.gz>pytket-0.5.3.tar.gz"]
  = [py "pytket-0.5.3.tar.g"].
Proof.
  apply (listing_names_unclosed [] (py "=/packages/pytket-0.5.3.tar.gz")
           (py "pytket-0.5.3.tar.gz")).
  - constructor.
  - absent.
  - absent.
Defined.

(** ** Extensions *)

Lemma endswith_suffix s suf :
  PyStr.endswith s suf = true <-> exists b, s = b ++ suf.
Proof.
  unfold PyStr.endswith. rewrite startswith_prefix. split.
  - intros [post H]. exists (rev post).
    rewrite <- (rev_involutive s), H, rev_app_distr, rev_involutive.
    reflexivity.
  - intros [b ->]. exists (rev b). apply rev_app_distr.
Qed.

Lemma whl_not_tar_gz base : PyStr.endswith (base ++ py ".whl") (py ".tar.gz") = false.
Proof. unfold PyStr.endswith. rewrite rev_app_distr. reflexivity. Qed.

Lemma tar_gz_not_whl base : PyStr.endswith (base ++ py ".tar.gz") (py ".whl") = false.
Proof. unfold PyStr.endswith. rewrite rev_app_distr. reflexivity. Qed.

(** [s[:-len(suf)]] on a string that ends with [suf]. *)
Lemma slice_to_suffix (p suf : str) :
  suf <> [] -> PyStr.slice_to (p ++ suf) (- Z.of_nat (length suf)) = p.
Proof.
  intros H. unfold PyStr.slice_to, PyStr.bound. rewrite length_app.
  assert (0 < length suf) by (destruct suf; [contradiction|simpl; lia]).
  destruct (Z.ltb_spec (- Z.of_nat (length suf)) 0); [|lia].
  replace (Z.to_nat _) with (length p + 0) by lia.
  rewrite firstn_app_2. simpl. apply app_nil_r.
Qed.

Lemma mapM_one {A B : Type} (f : A -> result B) a :
  mapM f [a] = (b <- f a ;; ret [b]).
Proof. simpl. destruct (f a); reflexivity. Qed.

Lemma line_packages_whl base :
  line_packages (base ++ py ".whl") = (p <- WheelPackage base ;; ret [p]).
Proof.
  unfold line_packages, extensions. cbn [filter fst].
  rewrite whl_not_tar_gz.
  replace (PyStr.endswith (base ++ py ".whl") (py ".whl")) with true
    by (symmetry; apply endswith_suffix; eexists; reflexivity).
  rewrite mapM_one. cbn [fst snd].
  rewrite slice_to_suffix by discriminate. reflexivity.
Qed.

Lemma line_packages_tar_gz base :
  line_packages (base ++ py ".tar.gz") = (p <- SourcePackage base ;; ret [p]).
Proof.
  unfold line_packages, extensions. cbn [filter fst].
  rewrite tar_gz_not_whl.
  replace (PyStr.endswith (base ++ py ".tar.gz") (py ".tar.gz")) with true
    by (symmetry; apply endswith_suffix; eexists; reflexivity).
  rewrite mapM_one. cbn [fst snd].
  rewrite slice_to_suffix by discriminate. reflexivity.
Qed.

(** X8. A file name of the listing is read by its extension: one that ends
    with .whl as a wheel and one that ends with .tar.gz as a source
    distribution, each from the name without the extension and giving one
    record; a file name with any other ending is ignored. *)
Theorem line_packages_by_extension base :
  line_packages (base ++ py ".whl") = (p <- WheelPackage base ;; ret [p]) /\
  line_packages (base ++ py ".tar.gz")
  = (p <- SourcePackage base ;; ret [p]) /\
  (forall l, (forall b, l <> b ++ py ".whl") ->
             (forall b, l <> b ++ py ".tar.gz") ->
             line_packages l = inr []).
Proof.
  split; [apply line_packages_whl|]. split; [apply line_packages_tar_gz|].
  intros l Hw Hs. unfold line_packages, extensions. cbn [filter fst].
  destruct (PyStr.endswith l (py ".whl")) eqn:Ew.
  { apply endswith_suffix in Ew. destruct Ew as [b ->]. destruct (Hw b eq_refl). }
  destruct (PyStr.endswith l (py ".tar.gz")) eqn:Es.
  { apply endswith_suffix in Es. destruct Es as [b ->]. destruct (Hs b eq_refl). }
  reflexivity.
Qed.

(** ** A file name outside the grammar *)

Lemma mapM_fails {A B : Type} (f : A -> result B) l a e :
  In a l -> f a = inl e -> exists e', mapM f l = inl e'.
Proof.
  induction l as [|x l IH]; simpl; [contradiction|].
  intros [->|Hin] Hf.
  - rewrite Hf. eexists. reflexivity.
  - destruct (f x); [eexists; reflexivity|].
    destruct (IH Hin Hf) as [e' ->]. eexists. reflexivity.
Qed.

Lemma filter_packages_raised args e :
  exists e', filter_packages args (inl e) = inl e'.
Proof.
  destruct (filter_tag args) as [e0|cpver] eqn:E.
  - exists e0. apply filter_packages_tag_error. exact E.
  - exists e. unfold filter_packages, filter_tag in *. rewrite E. reflexivity.
Qed.

(** X9. One file of the listing that does not fit its grammar (a source
    distribution without a dash, a wheel with fewer than four dashes) makes
    the whole listing fail with an exception, whatever the filters are and
    whether or not they would have kept that file. *)
Theorem malformed_name_aborts args readlines base :
  (In (base ++ py ".tar.gz") (listing_names readlines) /\ ~ In dash base) \/
  (In (base ++ py ".whl") (listing_names readlines) /\
   count_occ ascii_dec base dash < 4) ->
  exists e, get_filtered_packages args readlines = inl e.
Proof.
  intros H.
  assert (Hl : exists l e, In l (listing_names readlines) /\
                           line_packages l = inl e).
  { destruct H as [[Hin Hd]|[Hin Hc]].
    - exists (base ++ py ".tar.gz"), IndexError. split; [exact Hin|].
      rewrite line_packages_tar_gz.
      destruct (SourcePackage_cases base) as [[_ ->]|[Hlen _]]; [reflexivity|].
      rewrite length_rtags in Hlen. apply not_In_count_occ in Hd. lia.
    - exists (base ++ py ".whl"), TypeError. split; [exact Hin|].
      rewrite line_packages_whl.
      destruct (WheelPackage_cases base) as [[_ ->]|[Hlen _]]; [reflexivity|].
      rewrite length_rtags in Hlen. lia. }
  destruct Hl as (l & e & Hin & Hl).
  destruct (mapM_fails line_packages _ l e Hin Hl) as [e' He'].
  unfold get_filtered_packages, listing_packages. rewrite He'.
  apply filter_packages_raised.
Qed.

Lemma malformed_name_aborts_witness :
  exists e,
    get_filtered_packages (mkArgs (Some (py "pytket")) None None None)
      (pytket_listing ++ [anchor (py "notes.tar.gz")]) = inl e.
Proof.
  apply (malformed_name_aborts (mkArgs (Some (py "pytket")) None None None)
           (pytket_listing ++ [anchor (py "notes.tar.gz")]) (py "notes")).
  left. split; [vm_compute; tauto|absent].
Defined.

(* ================================================================== *)
(** ** The shape of the table *)

Lemma length_rjust w s : length s <= w -> length (PyStr.rjust w s) = w.
Proof. intros H. apply (rjust_aligned w s H). Qed.

Lemma table_cell_fits pkgs pack a :
  In pack (table_packages pkgs) -> length (getattr pack a) <= table_width pkgs a.
Proof.
  intros H. rewrite <- column_table_width.
  apply (list_max_In (fun p => length (getattr p a))). exact H.
Qed.

(** X10. The table is rectangular: it has two rows more than there are
    records, and every row is as long as the sum of the five column widths
    and the four separating spaces. *)
Theorem rows_same_length pkgs :
  length (rows pkgs) = 2 + length pkgs /\
  (forall line, In line (rows pkgs) ->
     length line = list_sum (map (table_width pkgs) attrs) + 4).
Proof.
  split.
  - unfold rows, table_packages. rewrite length_map. reflexivity.
  - intros line Hin. unfold rows in Hin. apply in_map_iff in Hin.
    destruct Hin as (pack & <- & Hpack).
    rewrite (row_cells _ pack (table_width pkgs)) by apply widths_table_width.
    unfold attrs. cbn [map PyStr.join list_sum].
    rewrite !length_app.
    rewrite !length_rjust by (apply table_cell_fits; exact Hpack).
    change (length (py " ")) with 1. cbn [list_sum fold_right]. lia.
Qed.

(* ================================================================== *)
(** ** Display strings *)

(** Joining parts that do not contain the separator and splitting the
    result gives the parts back. *)
Lemma split_join sep parts :
  parts <> [] -> Forall (fun t => ~ In sep t) parts ->
  PyStr.split sep None (PyStr.join [sep] parts) = parts.
Proof.
  induction parts as [|p parts IH]; intros Hne H; [contradiction|].
  inversion H as [|? ? Hp Hparts]; subst.
  destruct parts as [|q parts].
  - simpl. apply split_nosep. exact Hp.
  - change (PyStr.join [sep] (p :: q :: parts))
      with (p ++ sep :: PyStr.join [sep] (q :: parts)).
    rewrite split_first_nolimit by exact Hp.
    rewrite IH by (discriminate || exact Hparts). reflexivity.
Qed.

(** X11. The display string identifies the record when no field contains a
    space: two such records with the same display string are equal. *)
Theorem Package_str_injective p q :
  Forall (fun t => ~ In " "%char t) (fields p) ->
  Forall (fun t => ~ In " "%char t) (fields q) ->
  Package_str p = Package_str q -> p = q.
Proof.
  intros Hp Hq H. unfold Package_str in H. apply app_inv_tail in H.
  assert (E : fields p = fields q).
  { rewrite <- (split_join " "%char (fields p)) by (discriminate || exact Hp).
    rewrite <- (split_join " "%char (fields q)) by (discriminate || exact Hq).
    unfold fields. change [" "%char] with (py " "). rewrite H. reflexivity. }
  destruct p, q. unfold fields in E. simpl in E. congruence.
Qed.

Lemma Package_str_injective_witness : pytket_wheel = pytket_wheel.
Proof.
  apply (Package_str_injective pytket_wheel pytket_wheel).
  - repeat constructor; absent.
  - repeat constructor; absent.
  - reflexivity.
Defined.

(* ================================================================== *)
(** ** Downloading *)

Lemma download_loop_ok env statuses pkgs : forall k,
  (forall i, i < length pkgs -> statuses (k + i) = 0%Z) ->
  download_loop env statuses k pkgs
  = mkRun (concat (map (download_text env) pkgs))
          (map (sys_call env) pkgs) None.
Proof.
  induction pkgs as [|p pkgs IH]; intros k H; [reflexivity|].
  cbn [download_loop].
  replace (statuses k) with 0%Z
    by (symmetry; rewrite <- (Nat.add_0_r k); apply H; simpl; lia).
  cbn [Z.eqb]. rewrite IH.
  - reflexivity.
  - intros i Hi. replace (S k + i) with (k + S i) by lia.
    apply H. simpl. lia.
Qed.

Lemma download_loop_stops env statuses pkgs : forall k j,
  j < length pkgs ->
  (forall i, i < j -> statuses (k + i) = 0%Z) ->
  statuses (k + j) <> 0%Z ->
  download_loop env statuses k pkgs
  = mkRun (concat (map (download_text env) (firstn (S j) pkgs)))
          (map (sys_call env) (firstn (S j) pkgs))
          (Some (CalledProcessError (statuses (k + j)))).
Proof.
  induction pkgs as [|p pkgs IH]; intros k j Hj Hok Hbad; [simpl in Hj; lia|].
  cbn [download_loop]. destruct j as [|j].
  - rewrite Nat.add_0_r in *.
    destruct (Z.eqb_spec (statuses k) 0); [contradiction|].
    simpl. unfold download_text. rewrite app_nil_r. reflexivity.
  - replace (statuses k) with 0%Z
      by (symmetry; rewrite <- (Nat.add_0_r k); apply Hok; lia).
    cbn [Z.eqb]. rewrite (IH (S k) j).
    + replace (S k + j) with (k + S j) by lia. reflexivity.
    + simpl in Hj. lia.
    + intros i Hi. replace (S k + i) with (k + S i) by lia. apply Hok. lia.
    + replace (S k + j) with (k + S j) by lia. exact Hbad.
Qed.

Lemma download_loop_calls env statuses pkgs : forall k call,
  In call (run_calls (download_loop env statuses k pkgs)) ->
  exists p, In p pkgs /\ call = sys_call env p.
Proof.
  induction pkgs as [|p pkgs IH]; intros k call; [contradiction|].
  cbn [download_loop]. destruct (statuses k =? 0)%Z; cbn [run_calls].
  - intros [<-|H].
    + exists p. split; [left|]; reflexivity.
    + destruct (IH _ _ H) as (q & Hq & ->). exists q. split; [right|]; auto.
  - intros [<-|[]]. exists p. split; [left|]; reflexivity.
Qed.

(** X12. When every pip process exits with status zero, [download] runs
    one command per record the filters keep, in listing order, prints for
    each the announcement and the command, and raises nothing; with no
    record kept it runs and prints nothing and does not exit with an error
    status. *)
Theorem download_all env statuses args readlines pkgs :
  get_filtered_packages args readlines = inr pkgs ->
  (forall k, k < length pkgs -> statuses k = 0%Z) ->
  download env statuses args readlines
  = mkRun (concat (map (download_text env) pkgs))
          (map (sys_call env) pkgs) None.
Proof.
  intros H Hok. unfold download. rewrite H.
  apply download_loop_ok. exact Hok.
Qed.

Lemma download_all_witness :
  download (mkEnv (py "python3") (py "https://u:p@host/") 60 (py "."))
           (fun _ => 0%Z) (mkArgs None None None None) pytket_listing
  = mkRun (concat (map (download_text
                          (mkEnv (py "python3") (py "https://u:p@host/") 60
                                 (py ".")))
                       [pytket_wheel; pytket_sdist]))
          (map (sys_call (mkEnv (py "python3") (py "https://u:p@host/") 60
                                (py ".")))
               [pytket_wheel; pytket_sdist]) None.
Proof.
  apply (download_all (mkEnv (py "python3") (py "https://u:p@host/") 60 (py "."))
                      (fun _ => 0%Z) (mkArgs None None None None)
                      pytket_listing [pytket_wheel; pytket_sdist]).
  - reflexivity.
  - reflexivity.
Defined.

(** X13. [download] stops at the first pip process that exits with a
    status other than zero: the commands run are those of the records up to
    and including that one, in listing order, nothing is run or printed for
    the later records, and the run ends with [CalledProcessError] carrying
    that status. *)
Theorem download_stops_at_failure env statuses args readlines pkgs j :
  get_filtered_packages args readlines = inr pkgs ->
  j < length pkgs ->
  (forall k, k < j -> statuses k = 0%Z) ->
  statuses j <> 0%Z ->
  download env statuses args readlines
  = mkRun (concat (map (download_text env) (firstn (S j) pkgs)))
          (map (sys_call env) (firstn (S j) pkgs))
          (Some (CalledProcessError (statuses j))).
Proof.
  intros H Hj Hok Hbad. unfold download. rewrite H.
  apply (download_loop_stops env statuses pkgs 0 j); assumption.
Qed.

Lemma download_stops_at_failure_witness :
  download (mkEnv (py "python3") (py "https://u:p@host/") 60 (py "."))
           (fun _ => 1%Z) (mkArgs None None None None) pytket_listing
  = mkRun (concat (map (download_text
                          (mkEnv (py "python3") (py "https://u:p@host/") 60
                                 (py ".")))
                       (firstn 1 [pytket_wheel; pytket_sdist])))
          (map (sys_call (mkEnv (py "python3") (py "https://u:p@host/") 60
                                (py ".")))
               (firstn 1 [pytket_wheel; pytket_sdist]))
          (Some (CalledProcessError 1)).
Proof.
  apply (download_stops_at_failure
           (mkEnv (py "python3") (py "https://u:p@host/") 60 (py "."))
           (fun _ => 1%Z) (mkArgs None None None None)
           pytket_listing [pytket_wheel; pytket_sdist] 0).
  - reflexivity.
  - simpl. lia.
  - intros k Hk. lia.
  - discriminate.
Defined.

(** ** The command of a package *)

Lemma sys_call_platform package call :
  (if negb (PyStr.eqb (platform package) (py "any"))
   then call ++ [py "--platform"; platform package]
   else call)
  = call ++ platform_args package.
Proof.
  unfold platform_args.
  destruct (PyStr.eqb (platform package) (py "any")); simpl;
    [rewrite app_nil_r|]; reflexivity.
Qed.

(** A python tag that starts with cp selects the interpreter version. *)
Lemma sys_call_cp env package t :
  python package = py "cp" ++ t ->
  sys_call env package
  = base_sys_call env
    ++ [name package ++ py "==" ++ version package; py "-d"; dest env;
        py "--python"; t]
    ++ platform_args package.
Proof.
  intros H. unfold sys_call. rewrite sys_call_platform.
  rewrite H.
  replace (PyStr.startswith (py "cp" ++ t) (py "cp")) with true
    by (symmetry; apply startswith_prefix; eexists; reflexivity).
  change (PyStr.slice_from (py "cp" ++ t) (Z.of_nat (length (py "cp"))))
    with (PyStr.slice_from (["c"%char] ++ "p"%char :: t)
                           (Z.of_nat (length ["c"%char]) + 1)).
  rewrite slice_from_after. rewrite <- !app_assoc. reflexivity.
Qed.

Lemma sys_call_no_cp env package :
  PyStr.startswith (python package) (py "cp") = false ->
  sys_call env package
  = base_sys_call env
    ++ [name package ++ py "==" ++ version package; py "-d"; dest env]
    ++ platform_args package.
Proof.
  intros H. unfold sys_call. rewrite sys_call_platform, H.
  rewrite <- !app_assoc. reflexivity.
Qed.

(** X14. The command built for a source distribution parsed from its file
    name asks for name==version and has neither a python nor a platform
    argument.  The command built for a wheel parsed from a file name whose
    python tag is cp followed by [t] asks for the python version [t], and
    for the platform of the file name unless that is any. *)
Theorem sys_call_of_parsed env n v t a pl :
  ~ In dash v -> ~ In dash t -> ~ In dash a -> ~ In dash pl ->
  (exists r,
     SourcePackage (PyStr.join (py "-") [n; v]) = inr r /\
     sys_call env r
     = base_sys_call env ++ [n ++ py "==" ++ v; py "-d"; dest env]) /\
  (exists r,
     WheelPackage (PyStr.join (py "-") [n; v; py "cp" ++ t; a; pl]) = inr r /\
     sys_call env r
     = base_sys_call env
       ++ [n ++ py "==" ++ v; py "-d"; dest env; py "--python"; t]
       ++ (if PyStr.eqb pl (py "any") then []
           else [py "--platform"; pl])).
Proof.
  intros Hv Ht Ha Hpl. split.
  - eexists. split; [apply SourcePackage_tags, sdist_tags_join; exact Hv|].
    rewrite sys_call_no_cp by reflexivity.
    unfold platform_args. simpl. reflexivity.
  - eexists. split.
    + apply WheelPackage_tags, wheel_tags_join; try assumption.
      simpl. unfold dash in *. intros [H|[H|H]]; try discriminate. tauto.
    + rewrite (sys_call_cp env _ t) by reflexivity. reflexivity.
Qed.

Lemma sys_call_of_parsed_witness :
  (exists r,
     SourcePackage (py "pytket-0.5.3") = inr r /\
     sys_call (mkEnv (py "python3") (py "https://u:p@host/") 60 (py ".")) r
     = [py "python3"; py "-m"; py "pip"; py "--default-timeout"; py "60";
        py "download"; py "--no-deps"; py "--pre"; py "-i";
        py "https://u:p@host/"; py "pytket==0.5.3"; py "-d"; py "."]) /\
  (exists r,
     WheelPackage (py "pytket-0.5.3-cp38-none-linux_x86_64") = inr r /\
     sys_call (mkEnv (py "python3") (py "https://u:p@host/") 60 (py ".")) r
     = [py "python3"; py "-m"; py "pip"; py "--default-timeout"; py "60";
        py "download"; py "--no-deps"; py "--pre"; py "-i";
        py "https://u:p@host/"; py "pytket==0.5.3"; py "-d"; py ".";
        py "--python"; py "38"; py "--platform"; py "linux_x86_64"]).
Proof.
  apply (sys_call_of_parsed
           (mkEnv (py "python3") (py "https://u:p@host/") 60 (py "."))
           (py "pytket") (py "0.5.3") (py "38") (py "none")
           (py "linux_x86_64")); absent.
Defined.

Lemma filter_tag_major_minor n ver plat X Y :
  ~ In "."%char X -> ~ In "."%char Y ->
  filter_tag (mkArgs n ver (Some (X ++ py "." ++ Y)) plat)
  = inr (Some (py "cp" ++ X ++ Y)).
Proof.
  intros HX HY. unfold filter_tag. cbn [arg_pyver].
  pose proof (pyver_convert_major_minor X Y HX HY) as H.
  destruct (X ++ py "." ++ Y) eqn:E; [destruct X; discriminate|].
  rewrite H. reflexivity.
Qed.

(** X15. With the python version option X.Y, every command [download]
    runs asks for the python version XY: the filter keeps only records
    whose tag is cpXY, and the command drops the cp. *)
Theorem download_pyver_commands env statuses n ver plat X Y readlines call :
  ~ In "."%char X -> ~ In "."%char Y ->
  In call (run_calls (download env statuses
                        (mkArgs n ver (Some (X ++ py "." ++ Y)) plat)
                        readlines)) ->
  exists package,
    call = base_sys_call env
           ++ [name package ++ py "==" ++ version package; py "-d"; dest env;
               py "--python"; X ++ Y]
           ++ platform_args package.
Proof.
  intros HX HY Hin. unfold download in Hin.
  destruct (get_filtered_packages _ readlines) as [e|pkgs] eqn:E;
    [contradiction|].
  apply download_loop_calls in Hin. destruct Hin as (p & Hp & ->).
  exists p. apply sys_call_cp.
  unfold get_filtered_packages in E.
  destruct (listing_packages readlines) as [e|all].
  { destruct (filter_packages_raised
                (mkArgs n ver (Some (X ++ py "." ++ Y)) plat) e) as [e' He'].
    rewrite He' in E. discriminate. }
  destruct (filter_packages_keeps _ _ all
              (filter_tag_major_minor n ver plat X Y HX HY))
    as (out & Hout & K).
  rewrite Hout in E. injection E as ->.
  apply (keeps_In _ _ _ p K) in Hp. destruct Hp as [_ (_ & _ & Hpy & _)].
  exact Hpy.
Qed.

Lemma download_pyver_commands_witness :
  exists package,
    sys_call (mkEnv (py "python3") (py "https://u:p@host/") 60 (py "."))
             pytket_wheel
    = base_sys_call (mkEnv (py "python3") (py "https://u:p@host/") 60 (py "."))
      ++ [name package ++ py "==" ++ version package; py "-d"; py ".";
          py "--python"; py "38"]
      ++ platform_args package.
Proof.
  apply (download_pyver_commands
           (mkEnv (py "python3") (py "https://u:p@host/") 60 (py "."))
           (fun _ => 0%Z) None None None (py "3") (py "8") pytket_listing).
  - absent.
  - absent.
  - vm_compute. left. reflexivity.
Defined.

(* ================================================================== *)
(** ** Credentials *)

Lemma eqb_refl a : PyStr.eqb a a = true.
Proof. apply eqb_eq. reflexivity. Qed.

Lemma eqb_neq a b : a <> b -> PyStr.eqb a b = false.
Proof.
  intros H. destruct (PyStr.eqb a b) eqn:E; [|reflexivity].
  apply eqb_eq in E. contradiction.
Qed.

Lemma lookup_setitem_same {A : Type} key (val : A) d :
  lookup key d <> None -> lookup key (setitem key val d) = Some val.
Proof.
  induction d as [|[k v] d IH]; simpl; [congruence|].
  destruct (PyStr.eqb k key) eqn:E; simpl; rewrite E; [reflexivity|exact IH].
Qed.

Lemma lookup_setitem_other {A : Type} key (val : A) d k :
  lookup key d <> None -> k <> key ->
  lookup k (setitem key val d) = lookup k d.
Proof.
  intros Hd Hk. induction d as [|[k0 v] d IH]; simpl in *; [congruence|].
  destruct (PyStr.eqb k0 key) eqn:E; simpl.
  - apply eqb_eq in E. subst k0.
    rewrite (eqb_neq key k) by congruence. reflexivity.
  - destruct (PyStr.eqb k0 k); [reflexivity|apply IH; exact Hd].
Qed.

Lemma lookup_absent {A : Type} key (d : list (str * A)) :
  ~ In key (map fst d) -> lookup key d = None.
Proof.
  induction d as [|[k v] d IH]; simpl; [reflexivity|].
  intros H. rewrite eqb_neq by tauto. apply IH. tauto.
Qed.

Lemma lookup_present {A : Type} key (d : list (str * A)) :
  lookup key d <> None -> In key (map fst d).
Proof.
  induction d as [|[k v] d IH]; simpl; [congruence|].
  destruct (PyStr.eqb k key) eqn:E; [apply eqb_eq in E; tauto|].
  intros H. right. apply IH. exact H.
Qed.

(** The value of every attribute after the loop over the file. *)
Lemma merge_items_lookup items : forall ns ns',
  NoDup (map fst items) ->
  merge_items ns items = inr ns' ->
  forall key,
    lookup key ns'
    = match lookup key ns with
      | None => None
      | Some (Some v) => Some (Some v)
      | Some None =>
          Some (match lookup key items with
                | Some val => val
                | None => None
                end)
      end.
Proof.
  induction items as [|[k0 val] items IH]; intros ns ns' Hnd Hm key.
  - simpl in Hm. injection Hm as <-.
    destruct (lookup key ns) as [[v|]|]; reflexivity.
  - simpl in Hnd. inversion Hnd as [|? ? Hk0 Hnd']; subst.
    cbn [merge_items] in Hm. unfold varargs_get in Hm.
    destruct (lookup k0 ns) as [v0|] eqn:E0; [|discriminate].
    cbn [bindF] in Hm. cbn [lookup].
    destruct (PyStr.eqb k0 key) eqn:Ek.
    + apply eqb_eq in Ek. subst key. rewrite E0.
      destruct v0 as [s|].
      * rewrite (IH _ _ Hnd' Hm), E0. reflexivity.
      * rewrite (IH _ _ Hnd' Hm).
        rewrite lookup_setitem_same by congruence.
        destruct val; [reflexivity|].
        rewrite (lookup_absent k0 items Hk0). reflexivity.
    + assert (Hne : key <> k0).
      { intros ->. rewrite eqb_refl in Ek. discriminate. }
      destruct v0 as [s|].
      * apply (IH _ _ Hnd' Hm).
      * rewrite (IH _ _ Hnd' Hm).
        rewrite lookup_setitem_other by congruence. reflexivity.
Qed.

(** X16. The configuration file fills in only what the command line left
    out: after the loop over the file an attribute that was given keeps its
    value, an attribute that was not given has the value of its key in the
    file (and stays unset when the file has no such key), and no attribute
    is added. *)
Theorem merge_keeps_flags items ns ns' :
  NoDup (map fst items) ->
  merge_items ns items = inr ns' ->
  forall key,
    lookup key ns'
    = match lookup key ns with
      | None => None
      | Some (Some v) => Some (Some v)
      | Some None =>
          Some (match lookup key items with
                | Some val => val
                | None => None
                end)
      end.
Proof. apply merge_items_lookup. Qed.

Lemma merge_keeps_flags_witness :
  lookup (py "username")
         [(py "username", Some (py "flag")); (py "password", Some (py "p"));
          (py "index", Some (py "https://host/")); (py "debug", None)]
  = match lookup (py "username")
                 [(py "username", Some (py "flag")); (py "password", None);
                  (py "index", None); (py "debug", None)] with
    | None => None
    | Some (Some v) => Some (Some v)
    | Some None =>
        Some (match lookup (py "username")
                           [(py "index", Some (py "https://host/"));
                            (py "username", Some (py "file"));
                            (py "password", Some (py "p"))] with
              | Some val => val
              | None => None
              end)
    end.
Proof.
  apply (merge_keeps_flags
           [(py "index", Some (py "https://host/"));
            (py "username", Some (py "file")); (py "password", Some (py "p"))]
           [(py "username", Some (py "flag")); (py "password", None);
            (py "index", None); (py "debug", None)]
           [(py "username", Some (py "flag")); (py "password", Some (py "p"));
            (py "index", Some (py "https://host/")); (py "debug", None)]).
  - repeat constructor; simpl; intuition discriminate.
  - reflexivity.
Defined.

Lemma setitem_domain {A : Type} key (val : A) d k :
  lookup key d <> None ->
  (lookup k (setitem key val d) = None <-> lookup k d = None).
Proof.
  intros Hd. destruct (list_eq_dec ascii_dec k key) as [->|Hne].
  - rewrite lookup_setitem_same by exact Hd. split; [discriminate|tauto].
  - rewrite lookup_setitem_other by assumption. tauto.
Qed.

Lemma merge_items_cases items : forall ns,
  (exists ns', merge_items ns items = inr ns' /\
               forall key, In key (map fst items) -> lookup key ns <> None) \/
  (exists key, merge_items ns items = inl (KeyError key) /\
               In key (map fst items) /\ lookup key ns = None).
Proof.
  induction items as [|[k0 val] items IH]; intros ns.
  - left. exists ns. split; [reflexivity|contradiction].
  - cbn [merge_items]. unfold varargs_get.
    destruct (lookup k0 ns) as [v0|] eqn:E0.
    + cbn [bindF].
      assert (Hstep : forall ns1,
                (forall k, lookup k ns1 = None <-> lookup k ns = None) ->
                (exists ns', merge_items ns1 items = inr ns' /\
                   forall key, In key (map fst ((k0, val) :: items)) ->
                               lookup key ns <> None) \/
                (exists key, merge_items ns1 items = inl (KeyError key) /\
                   In key (map fst ((k0, val) :: items)) /\
                   lookup key ns = None)).
      { intros ns1 Hdom.
        destruct (IH ns1) as [(ns' & Hm & Hall)|(key & Hm & Hin & Hnone)].
        - left. exists ns'. split; [exact Hm|].
          intros key [<-|Hin]; [simpl; congruence|].
          rewrite <- Hdom. apply Hall. exact Hin.
        - right. exists key. split; [exact Hm|]. split; [right; exact Hin|].
          apply Hdom. exact Hnone. }
      destruct v0 as [s|].
      * apply Hstep. tauto.
      * apply Hstep. intros k. apply setitem_domain. congruence.
    + right. exists k0. split; [reflexivity|]. split; [left; reflexivity|exact E0].
Qed.

(** X17. The loop over the configuration file succeeds exactly when every
    key of the file is an attribute of the parsed arguments; otherwise it
    raises [KeyError] for a key of the file that is no attribute, and
    nothing else can make it fail. *)
Theorem merge_unknown_key ns items :
  ((exists ns', merge_items ns items = inr ns') <->
   (forall key, In key (map fst items) -> lookup key ns <> None)) /\
  (forall e, merge_items ns items = inl e ->
     exists key, e = KeyError key /\ In key (map fst items) /\
                 lookup key ns = None).
Proof.
  destruct (merge_items_cases items ns)
    as [(ns' & Hm & Hall)|(key & Hm & Hin & Hnone)]; rewrite Hm; split.
  - split; [intros _; exact Hall|intros _; eexists; reflexivity].
  - discriminate.
  - split; [intros [ns' [=]]|].
    intros Hall. exfalso. apply (Hall key Hin Hnone).
  - intros e [= <-]. exists key. tauto.
Qed.

(** ** The index URL *)

Lemma slice_from_prefix (p q : str) :
  PyStr.slice_from (p ++ q) (Z.of_nat (length p)) = q.
Proof.
  unfold PyStr.slice_from, PyStr.bound. rewrite length_app.
  destruct (Z.ltb_spec (Z.of_nat (length p)) 0); [lia|].
  replace (Z.to_nat _) with (length p) by lia.
  rewrite skipn_app, Nat.sub_diag, skipn_all. reflexivity.
Qed.

Lemma index_url_https (ns : Namespace) (u p : option str) (rest : str) :
  lookup (py "index") ns = Some (Some (URL_PREFIX ++ rest)) ->
  lookup (py "username") ns = Some u ->
  lookup (py "password") ns = Some p ->
  index_url ns
  = inr (URL_PREFIX ++ format_field u ++ py ":" ++ format_field p ++ py "@"
         ++ rest).
Proof.
  intros Hi Hu Hp. unfold index_url, attribute. rewrite Hi. cbn [bindF].
  replace (PyStr.startswith (URL_PREFIX ++ rest) URL_PREFIX) with true
    by (symmetry; apply startswith_prefix; eexists; reflexivity).
  rewrite Hu, Hp. cbn [bindF]. rewrite slice_from_prefix. reflexivity.
Qed.

Lemma index_url_other (ns : Namespace) (idx : str) :
  lookup (py "index") ns = Some (Some idx) ->
  (forall rest, idx <> URL_PREFIX ++ rest) ->
  index_url ns = inl (RuntimeError (py "Index url must begin with https://")).
Proof.
  intros Hi Hno. unfold index_url, attribute. rewrite Hi. cbn [bindF].
  destruct (PyStr.startswith idx URL_PREFIX) eqn:E; [|reflexivity].
  apply startswith_prefix in E. destruct E as [rest ->].
  destruct (Hno rest eq_refl).
Qed.

Lemma load_config_explicit (ns : Namespace) cfg (u p idx : str) :
  lookup (py "username") ns = Some (Some u) ->
  lookup (py "password") ns = Some (Some p) ->
  lookup (py "index") ns = Some (Some idx) ->
  load_config ns cfg = inr ns.
Proof.
  intros Hu Hp Hi. unfold load_config, attribute. rewrite Hu, Hp, Hi.
  reflexivity.
Qed.

Lemma load_config_file (ns : Namespace) items (pw us ix : option str) :
  lookup (py "password") ns = Some pw ->
  lookup (py "username") ns = Some us ->
  lookup (py "index") ns = Some ix ->
  pw = None \/ us = None \/ ix = None ->
  load_config ns (Some items) = merge_items ns items.
Proof.
  intros Hp Hu Hi H. unfold load_config, attribute. rewrite Hp, Hu, Hi.
  cbn [bindF]. destruct pw, us, ix; try reflexivity.
  destruct H as [H|[H|H]]; discriminate.
Qed.

(** X18. When username, password and index are all given on the command
    line, the configuration file is not consulted, absent or not.  If the
    index is https:// followed by [rest], the URL is https://, the username,
    a colon, the password, an at sign and [rest], with nothing escaped; if
    the index does not start with https://, [RuntimeError] is raised. *)
Theorem main_url_explicit (ns : Namespace) cfg (u p idx : str) :
  lookup (py "username") ns = Some (Some u) ->
  lookup (py "password") ns = Some (Some p) ->
  lookup (py "index") ns = Some (Some idx) ->
  (forall rest, idx = py "https://" ++ rest ->
     main_url ns cfg = inr (py "https://" ++ u ++ py ":" ++ p ++ py "@" ++ rest))
  /\
  ((forall rest, idx <> py "https://" ++ rest) ->
   main_url ns cfg
   = inl (RuntimeError (py "Index url must begin with https://"))).
Proof.
  intros Hu Hp Hi. unfold main_url.
  rewrite (load_config_explicit ns cfg u p idx Hu Hp Hi). cbn [bindF]. split.
  - intros rest ->.
    apply (index_url_https ns (Some u) (Some p) rest); assumption.
  - intros Hno. apply (index_url_other ns idx Hi Hno).
Qed.

Lemma main_url_explicit_witness :
  (forall rest, py "https://pypi.example.com/" = py "https://" ++ rest ->
     main_url [(py "username", Some (py "u")); (py "password", Some (py "p@:"));
               (py "index", Some (py "https://pypi.example.com/"))] None
     = inr (py "https://" ++ py "u" ++ py ":" ++ py "p@:" ++ py "@" ++ rest))
  /\
  ((forall rest, py "https://pypi.example.com/" <> py "https://" ++ rest) ->
   main_url [(py "username", Some (py "u")); (py "password", Some (py "p@:"));
             (py "index", Some (py "https://pypi.example.com/"))] None
   = inl (RuntimeError (py "Index url must begin with https://"))).
Proof.
  apply (main_url_explicit
           [(py "username", Some (py "u")); (py "password", Some (py "p@:"));
            (py "index", Some (py "https://pypi.example.com/"))]
           None (py "u") (py "p@:") (py "https://pypi.example.com/"));
    reflexivity.
Defined.

(** X19. A credential that neither the command line nor the file gives is
    not detected: with the password unset and a file without the key
    password, the URL is built with the text None as password. *)
Theorem main_url_password_missing (ns : Namespace) items (u rest : str) :
  lookup (py "username") ns = Some (Some u) ->
  lookup (py "password") ns = Some None ->
  lookup (py "index") ns = Some (Some (py "https://" ++ rest)) ->
  NoDup (map fst items) ->
  (forall key, In key (map fst items) -> lookup key ns <> None) ->
  lookup (py "password") items = None ->
  main_url ns (Some items)
  = inr (py "https://" ++ u ++ py ":None@" ++ rest).
Proof.
  intros Hu Hp Hi Hnd Hkeys Hfile. unfold main_url.
  rewrite (load_config_file ns items None (Some u) _ Hp Hu Hi)
    by (left; reflexivity).
  destruct (merge_items_cases items ns)
    as [(ns' & Hm & _)|(key & _ & Hin & Hnone)];
    [|destruct (Hkeys key Hin Hnone)].
  rewrite Hm. cbn [bindF].
  pose proof (merge_items_lookup items ns ns' Hnd Hm) as L.
  rewrite (index_url_https ns' (Some u) None rest).
  - reflexivity.
  - rewrite L, Hi. reflexivity.
  - rewrite L, Hu. reflexivity.
  - rewrite L, Hp, Hfile. reflexivity.
Qed.

Lemma main_url_password_missing_witness :
  main_url [(py "username", Some (py "u")); (py "password", None);
            (py "index", Some (py "https://host/"))]
           (Some [(py "index", Some (py "https://other/"))])
  = inr (py "https://" ++ py "u" ++ py ":None@" ++ py "host/").
Proof.
  apply (main_url_password_missing
           [(py "username", Some (py "u")); (py "password", None);
            (py "index", Some (py "https://host/"))]
           [(py "index", Some (py "https://other/"))] (py "u") (py "host/")).
  - reflexivity.
  - reflexivity.
  - reflexivity.
  - repeat constructor. simpl. tauto.
  - simpl. intros key [<-|[]]. discriminate.
  - reflexivity.
Defined.

(** X20. When a credential is missing on the command line and the
    configuration file does not exist, [RuntimeError] is raised before the
    index is looked at, whether or not it starts with https://. *)
Theorem main_url_no_file (ns : Namespace) (pw us ix : option str) :
  lookup (py "password") ns = Some pw ->
  lookup (py "username") ns = Some us ->
  lookup (py "index") ns = Some ix ->
  pw = None \/ us = None \/ ix = None ->
  main_url ns None
  = inl (RuntimeError (py "Username and password must be set by optional arguments or in $HOME/.config/pypig/auth.json")).
Proof.
  intros Hp Hu Hi H. unfold main_url, load_config, attribute.
  rewrite Hp, Hu, Hi. cbn [bindF].
  destruct pw, us, ix; try reflexivity.
  destruct H as [H|[H|H]]; discriminate.
Qed.

Lemma main_url_no_file_witness :
  main_url [(py "username", Some (py "u")); (py "password", None);
            (py "index", Some (py "http://host/"))] None
  = inl (RuntimeError (py "Username and password must be set by optional arguments or in $HOME/.config/pypig/auth.json")).
Proof.
  apply (main_url_no_file
           [(py "username", Some (py "u")); (py "password", None);
            (py "index", Some (py "http://host/"))]
           None (Some (py "u")) (Some (py "http://host/")));
    try reflexivity.
  left. reflexivity.
Defined.

(* ================================================================== *)
(** ** From the record back to the file name *)

(** X21. Parsing loses nothing: the file name of a record a parser returns
    is the record's fields joined by dashes again (name, version, python
    tag, ABI tag and platform for a wheel; name and version for a source
    distribution), and the fields after the name contain no dash.  So two
    file names that give the same record are the same. *)
Theorem parsed_record_rebuilds f r :
  (WheelPackage f = inr r ->
   f = PyStr.join (py "-") [name r; version r; python r; abi r; platform r] /\
   ~ In dash (version r) /\ ~ In dash (python r) /\ ~ In dash (abi r) /\
   ~ In dash (platform r) /\ type r = py "wheel") /\
  (SourcePackage f = inr r ->
   f = PyStr.join (py "-") [name r; version r] /\ ~ In dash (version r) /\
   type r = py "sdist").
Proof.
  split; intros H.
  - destruct (WheelPackage_cases f) as [[_ E]|[Hlen _]]; [congruence|].
    rewrite length_rtags in Hlen.
    destruct (WheelPackage_of_dashes f) as (n & v & p & a & pl & Hf & Hv & Hp & Ha & Hpl & E);
      [lia|].
    rewrite E in H. injection H as <-. simpl. tauto.
  - destruct (SourcePackage_cases f) as [[_ E]|[Hlen _]]; [congruence|].
    rewrite length_rtags in Hlen.
    destruct (SourcePackage_of_dash f) as (n & v & Hf & Hv & E); [lia|].
    rewrite E in H. injection H as <-. simpl. tauto.
Qed.
